(** * cashboard: the derived-analytics engine of [src/cashboard.jsx]

    A shallow embedding of the computations and state updates of the
    component [App]: the period keys ([parseMonth], [parseWeek],
    [parseYear]), the totals ([filled], [totalIncome], [totalExpense],
    [currentBalance]), the chart series ([balanceChartData]), the plan table
    ([planVsActual]), the updates of the entries and of the plans, and the
    CSV export.

    Modelling choices, all local to this file:
    - a JavaScript string is a [string] of bytes, UTF-8 for text outside
      ASCII; the dates, months and amounts the engine inspects are ASCII;
    - a JavaScript number is a binary64 [float], with the kernel's
      arithmetic: sums round, and neither associate nor commute in general;
    - [Number(s)] reads the decimal, hexadecimal, octal and binary literals
      and [Infinity], and rounds to the nearest double;
    - [localeCompare] is the host's collation. On the values of date and
      month inputs (digits and hyphens in fixed places, or the empty string)
      it is the order of the code units, which is how [by_date], [by_month]
      and [by_plan_month] compare; statements that rest on that order say
      so with [is_month_form] and [is_date_value];
    - the object [groups] is a finite map ([gmap string _]); a key that names
      a member of [Object.prototype] does not occur among period keys;
    - [Date] follows ECMA-262 with a fixed local offset [tz] (minutes east
      of UTC, no daylight saving); time values are whole milliseconds. *)

From Stdlib Require Import ZArith String Ascii List Lia Permutation.
From Stdlib Require Import Sorting.Sorted DecimalString Floats.
From stdpp Require Import base option list gmap strings sorting.

Local Open Scope string_scope.
Local Open Scope Z_scope.

(** ** JavaScript built-ins used by the engine *)

Module JS.

(** A number is a double: [float], with [nan], the infinities and the two
    zeros. *)
Definition num : Set := float.

Definition is_digit (c : ascii) : bool :=
  ((48 <=? nat_of_ascii c)%nat && (nat_of_ascii c <=? 57)%nat)%bool.

Definition digit_val (c : ascii) : Z := Z.of_nat (nat_of_ascii c) - 48.

(** White space and line terminators that [Number] strips: the ASCII
    ones, and those that UTF-8 writes in two or three bytes (U+00A0,
    U+1680, U+2000 to U+200A, U+2028, U+2029, U+202F, U+205F, U+3000,
    U+FEFF). *)
Definition is_space (c : ascii) : bool :=
  let n := nat_of_ascii c in
  ((n =? 32)%nat || ((9 <=? n)%nat && (n <=? 13)%nat))%bool.

Definition is_space2 (c1 c2 : ascii) : bool :=
  ((nat_of_ascii c1 =? 194)%nat && (nat_of_ascii c2 =? 160)%nat)%bool.

Definition is_space3 (c1 c2 c3 : ascii) : bool :=
  let a := nat_of_ascii c1 in
  let b := nat_of_ascii c2 in
  let c := nat_of_ascii c3 in
  (((a =? 225) && (b =? 154) && (c =? 128))
   || ((a =? 226) && (b =? 128)
       && (((128 <=? c) && (c <=? 138)) || (c =? 168) || (c =? 169) || (c =? 175)))
   || ((a =? 226) && (b =? 129) && (c =? 159))
   || ((a =? 227) && (b =? 128) && (c =? 128))
   || ((a =? 239) && (b =? 187) && (c =? 191)))%nat%bool.

(** The string without the white space at its head; [backwards] when the
    string is read from its end, the bytes of a character then coming last
    byte first. *)
Fixpoint drop_space (backwards : bool) (s : string) : string :=
  match s with
  | String c1 s1 =>
      if is_space c1 then drop_space backwards s1
      else
        match s1 with
        | String c2 s2 =>
            if (if backwards then is_space2 c2 c1 else is_space2 c1 c2)
            then drop_space backwards s2
            else
              match s2 with
              | String c3 s3 =>
                  if (if backwards then is_space3 c3 c2 c1 else is_space3 c1 c2 c3)
                  then drop_space backwards s3
                  else s
              | EmptyString => s
              end
        | EmptyString => s
        end
  | EmptyString => EmptyString
  end.

Definition rev_string (s : string) : string :=
  string_of_list_ascii (List.rev (list_ascii_of_string s)).

Definition trim (s : string) : string :=
  rev_string (drop_space true (rev_string (drop_space false s))).

(** The value of a run of decimal digits, [None] when another character
    occurs; [acc] is the value of the digits already read. *)
Fixpoint digits_from (acc : Z) (s : string) : option Z :=
  match s with
  | EmptyString => Some acc
  | String c s' =>
      if is_digit c then digits_from (10 * acc + digit_val c) s' else None
  end.

Definition digits (s : string) : option Z :=
  match s with
  | EmptyString => None
  | _ => digits_from 0 s
  end.

(** *** [Number(s)] (ECMA-262, StringToNumber) *)

(** The longest run of decimal digits at the head of a string, and the
    rest. *)
Fixpoint span_digits (s : string) : string * string :=
  match s with
  | String c s' =>
      if is_digit c
      then let '(d, r) := span_digits s' in (String c d, r)
      else (EmptyString, s)
  | EmptyString => (EmptyString, EmptyString)
  end.

(** The value of a hexadecimal digit, [None] for another character. *)
Definition hex_val (c : ascii) : option Z :=
  let n := Z.of_nat (nat_of_ascii c) in
  if (48 <=? n) && (n <=? 57) then Some (n - 48)
  else if (97 <=? n) && (n <=? 102) then Some (n - 87)
  else if (65 <=? n) && (n <=? 70) then Some (n - 55)
  else None.

(** The value of a non-empty run of digits in base [radix]. *)
Fixpoint radix_from (radix acc : Z) (s : string) : option Z :=
  match s with
  | EmptyString => Some acc
  | String c s' =>
      match hex_val c with
      | Some v => if v <? radix then radix_from radix (radix * acc + v) s' else None
      | None => None
      end
  end.

Definition radix_digits (radix : Z) (s : string) : option Z :=
  match s with
  | EmptyString => None
  | _ => radix_from radix 0 s
  end.

(** The double nearest to [n * 10 ^ e] for a natural [n], ties to even,
    with the sign [neg]. With [l] the binary logarithm of [n],
    [10 ^ (3 * l / 10) <= n < 10 ^ (31 * (l + 1) / 100 + 1)]: a value of
    [10 ^ 309] or more is beyond the largest double, and one under
    [10 ^ -325] is below half the smallest, so the two tests only save the
    computation of a needlessly large power of ten. *)
Definition of_decimal (neg : bool) (n e : Z) : num :=
  match n with
  | Z.pos p =>
      let l := Z.log2 n in
      if 309 <=? e + 3 * l / 10 then (if neg then neg_infinity else infinity)
      else if e + 31 * (l + 1) / 100 + 1 <=? -325
      then (if neg then neg_zero else zero)
      else if 0 <=? e
      then SF2Prim (binary_normalize prec emax
                      ((if neg then Z.neg p else n) * 10 ^ e) 0 false)
      else SF2Prim (SFdiv prec emax (S754_finite neg p 0)
                      (S754_finite false (Z.to_pos (10 ^ (- e))) 0))
  | _ => if neg then neg_zero else zero
  end.

(** [ExponentPart], when there is one: [e] or [E], a sign, digits. *)
Definition exponent_part (s : string) : option Z :=
  match s with
  | EmptyString => Some 0
  | String c s' =>
      if Ascii.eqb c "e" || Ascii.eqb c "E"
      then match s' with
           | String "-"%char s'' =>
               match digits s'' with Some z => Some (Z.opp z) | None => None end
           | String "+"%char s'' => digits s''
           | _ => digits s'
           end
      else None
  end.

(** [StrUnsignedDecimalLiteral]: [Infinity], or digits with an optional
    fraction and exponent, one digit at least before the exponent. *)
Definition unsigned_decimal (neg : bool) (s : string) : num :=
  if String.eqb s "Infinity" then (if neg then neg_infinity else infinity)
  else
    let '(int_part, r1) := span_digits s in
    let '(frac_part, r2) :=
      match r1 with
      | String "."%char r => span_digits r
      | _ => (EmptyString, r1)
      end in
    match digits_from 0 (int_part +:+ frac_part), exponent_part r2 with
    | Some n, Some e =>
        match int_part +:+ frac_part with
        | EmptyString => nan
        | _ => of_decimal neg n (e - Z.of_nat (String.length frac_part))
        end
    | _, _ => nan
    end.

(** [Number(s)] for a string [s]: white space is dropped at both ends, the
    empty string is [+0], a string that is no numeric literal is [NaN]. *)
Definition Number (s : string) : num :=
  match trim s with
  | EmptyString => zero
  | String "-"%char s' => unsigned_decimal true s'
  | String "+"%char s' => unsigned_decimal false s'
  | String "0"%char (String c s') as t =>
      let radix :=
        if Ascii.eqb c "x" || Ascii.eqb c "X" then 16
        else if Ascii.eqb c "o" || Ascii.eqb c "O" then 8
        else if Ascii.eqb c "b" || Ascii.eqb c "B" then 2
        else 0 in
      if radix =? 0 then unsigned_decimal false t
      else match radix_digits radix s' with
           | Some n => of_decimal false n 0
           | None => nan
           end
  | t => unsigned_decimal false t
  end.

(** A number is falsy when it is [NaN], [+0] or [-0]. *)
Definition falsy (x : num) : bool := is_nan x || is_zero x.

(** [Number(s) || 0]. *)
Definition Number_or_0 (s : string) : num :=
  if falsy (Number s) then zero else Number s.

(** [Number(s) || null]. *)
Definition Number_or_null (s : string) : option num :=
  if falsy (Number s) then None else Some (Number s).

(** A string is truthy when it is not empty. *)
Definition truthy (s : string) : bool :=
  match s with
  | EmptyString => false
  | String _ _ => true
  end.

(** [s.slice(0, n)]. *)
Definition slice0 (n : nat) (s : string) : string := substring 0 n s.

(** [String(z)] for an integer. *)
Definition toString (z : Z) : string := NilZero.string_of_int (Z.to_int z).

(** [s.padStart(2, "0")]. *)
Definition padStart2 (s : string) : string :=
  match String.length s with
  | O => "00"
  | S O => String "0"%char s
  | _ => s
  end.

(** [a.localeCompare(b) <= 0], and the order of the default [sort()]:
    lexicographic on code units. *)
Definition str_le (a b : string) : Prop := String.leb a b = true.
Definition str_lt (a b : string) : Prop := String.ltb a b = true.

(** [xs.sort(cmp)] is stable; [le a b] stands for [cmp(a, b) <= 0]. *)
Section Sort.
Context {A : Type} (le : A -> A -> bool).

Fixpoint insert_sorted (x : A) (l : list A) : list A :=
  match l with
  | [] => [x]
  | y :: l' => if le x y then x :: y :: l' else y :: insert_sorted x l'
  end.

Fixpoint sort (l : list A) : list A :=
  match l with
  | [] => []
  | x :: l' => insert_sorted x (sort l')
  end.
End Sort.

(** [xs.findIndex(p)]: the first index whose element satisfies [p],
    [-1] when there is none. *)
Fixpoint findIndex {A : Type} (p : A -> bool) (l : list A) : Z :=
  match l with
  | [] => -1
  | x :: l' =>
      if p x then 0
      else let i := findIndex p l' in if i <? 0 then -1 else i + 1
  end.

(** [xs.reduce((s, x) => s + f(x), 0)]: the sum is taken from the left,
    each step rounding. *)
Definition reduce_sum {A : Type} (f : A -> num) (l : list A) : num :=
  fold_left (fun s x => (s + f x)%float) l zero.

End JS.

(** ** [Date], after ECMA-262 (Date objects) *)

Module JSDate.

Definition msPerDay : Z := 86400000.
Definition msPerMinute : Z := 60000.

(** Time values are milliseconds since 1970-01-01T00:00:00Z. *)
Definition Day (t : Z) : Z := t / msPerDay.

Definition DayFromYear (y : Z) : Z :=
  365 * (y - 1970) + (y - 1969) / 4 - (y - 1901) / 100 + (y - 1601) / 400.

Definition DaysInYear (y : Z) : Z :=
  if negb (y mod 4 =? 0) then 365
  else if negb (y mod 100 =? 0) then 366
  else if negb (y mod 400 =? 0) then 365
  else 366.

Definition InLeapYear (y : Z) : Z := DaysInYear y - 365.

(** The day within the year on which month [m] (0 = January) starts. *)
Definition MonthStart (leap m : Z) : Z :=
  match m with
  | 0 => 0
  | 1 => 31
  | 2 => 59 + leap
  | 3 => 90 + leap
  | 4 => 120 + leap
  | 5 => 151 + leap
  | 6 => 181 + leap
  | 7 => 212 + leap
  | 8 => 243 + leap
  | 9 => 273 + leap
  | 10 => 304 + leap
  | _ => 334 + leap
  end.

Definition DaysInMonth (y m : Z) : Z :=
  match m with
  | 1 => 28 + InLeapYear y
  | 3 | 5 | 8 | 10 => 30
  | _ => 31
  end.

(** [MakeDay(year, month, date)]. *)
Definition MakeDay (year month date : Z) : Z :=
  let ym := year + month / 12 in
  let mn := month mod 12 in
  DayFromYear ym + MonthStart (InLeapYear ym) mn + date - 1.

(** [YearFromTime]: the largest [y] with [DayFromYear y <= day], found by
    walking up from an underestimate. *)
Fixpoint year_up (fuel : nat) (y day : Z) : Z :=
  match fuel with
  | O => y
  | S fuel' =>
      if DayFromYear (y + 1) <=? day then year_up fuel' (y + 1) day else y
  end.

Definition YearFromDay (day : Z) : Z :=
  let y0 := 1970 + (if 0 <=? day then day / 366 else day / 365) in
  year_up (Z.to_nat (Z.abs day / 133590) + 2) y0 day.

Definition WeekDay (day : Z) : Z := (day + 4) mod 7.

(** [LocalTime(t)] and [UTC(t)] for a zone [tz] minutes east of UTC. *)
Definition LocalTime (tz t : Z) : Z := t + tz * msPerMinute.
Definition UTC (tz t : Z) : Z := t - tz * msPerMinute.

(** [dt.getFullYear()] and [dt.getDay()]. *)
Definition getFullYear (tz t : Z) : Z := YearFromDay (Day (LocalTime tz t)).
Definition getDay (tz t : Z) : Z := WeekDay (Day (LocalTime tz t)).

(** [new Date(year, month, date)]: local midnight; a year in 0..99 means
    1900 + year. *)
Definition fromLocal (tz year month date : Z) : Z :=
  let yr := if (0 <=? year) && (year <=? 99) then 1900 + year else year in
  UTC tz (MakeDay yr month date * msPerDay).

(** The fields of the date-only form [YYYY-MM-DD]: year, month (1..12)
    and day of a calendar date. *)
Definition fields (s : string) : option (Z * Z * Z) :=
  match String.length s, get 4 s, get 7 s with
  | 10%nat, Some "-"%char, Some "-"%char =>
      match JS.digits (substring 0 4 s), JS.digits (substring 5 2 s),
            JS.digits (substring 8 2 s) with
      | Some y, Some m, Some d =>
          if (1 <=? m) && (m <=? 12) && (1 <=? d) && (d <=? DaysInMonth y (m - 1))
          then Some (y, m, d)
          else None
      | _, _, _ => None
      end
  | _, _, _ => None
  end.

(** [new Date(s)] for the date-only form, which denotes midnight UTC;
    [None] is Invalid Date. Other forms, and a day past the end of its
    month, are Invalid Date here. *)
Definition parse (s : string) : option Z :=
  match fields s with
  | Some (y, m, d) => Some (MakeDay y (m - 1) d * msPerDay)
  | None => None
  end.

(** [Math.ceil(a / b)] for integers [a] and [b > 0]. *)
Definition ceil_div (a b : Z) : Z := - ((- a) / b).

End JSDate.

(** ** Period keys *)

Definition parseMonth (d : string) : string := JS.slice0 7 d.

(** [((dt - jan1) / 86400000 + jan1.getDay() + 1) / 7] is the quotient of
    [dt - jan1 + (jan1.getDay() + 1) * 86400000] by [7 * 86400000]. With a
    zone of whole minutes it is an integer, computed exactly, or at least
    1/10080 away from one, so rounding never changes its ceiling. *)
Definition parseWeek (tz : Z) (d : string) : string :=
  match JSDate.parse d with
  | None => "NaN-WNaN"
  | Some dt =>
      let year := JSDate.getFullYear tz dt in
      let jan1 := JSDate.fromLocal tz year 0 1 in
      let wk :=
        JSDate.ceil_div
          (dt - jan1 + (JSDate.getDay tz jan1 + 1) * JSDate.msPerDay)
          (7 * JSDate.msPerDay) in
      JS.toString year +:+ "-W" +:+ JS.padStart2 (JS.toString wk)
  end.

Definition parseYear (d : string) : string := JS.slice0 4 d.

(** ** Data model *)

(** [TYPES]: the two values of an entry's [type]. *)
Inductive EntryType : Type :=
| Income    (* "収入" *)
| Expense.  (* "支出" *)

Definition EntryType_eqb (a b : EntryType) : bool :=
  match a, b with
  | Income, Income | Expense, Expense => true
  | _, _ => false
  end.

(** [PERIODS]: the values of [period]. *)
Inductive Period : Type :=
| DayP
| WeekP
| MonthP
| YearP.

Module Entry.
Record t : Type := mk {
  id : string;
  date : string;
  type : EntryType;
  category : string;
  description : string;
  amount : string;
  memo : string;
  receipt : option string;
  receiptName : string
}.
End Entry.

Module Plan.
Record t : Type := mk {
  id : string;
  month : string;
  targetBalance : string;
  plannedIncome : string;
  plannedExpense : string
}.
End Plan.

(** The accumulator [{ income, expense }] kept per period key. *)
Module Group.
Record t : Type := mk { income : JS.num; expense : JS.num }.
Definition zero : t := mk 0%float 0%float.
End Group.

(** A row of [balanceChartData]; [balance], [income], [expense] and
    [planBalance] stand for the keys 残高, 収入, 支出 and 計画残高. *)
Module Row.
Record t : Type := mk {
  period : string;
  balance : JS.num;
  income : JS.num;
  expense : JS.num;
  planBalance : option JS.num
}.
End Row.

(** A row of [planVsActual]; the fields stand for the keys 計画収入,
    実績収入, 計画支出, 実績支出, 計画残高, 収入乖離 and 支出乖離. *)
Module VRow.
Record t : Type := mk {
  month : string;
  plannedIncome : JS.num;
  actualIncome : JS.num;
  plannedExpense : JS.num;
  actualExpense : JS.num;
  targetBalance : JS.num;
  incomeVariance : JS.num;
  expenseVariance : JS.num
}.
End VRow.

(** ** Computed values *)

(** [(r) => r.description || r.amount]. *)
Definition is_filled (r : Entry.t) : bool :=
  JS.truthy (Entry.description r) || JS.truthy (Entry.amount r).

Definition filled (entries : list Entry.t) : list Entry.t :=
  List.filter is_filled entries.

Definition amount_of (r : Entry.t) : JS.num := JS.Number_or_0 (Entry.amount r).

Definition has_type (ty : EntryType) (r : Entry.t) : bool :=
  EntryType_eqb (Entry.type r) ty.

Definition totalIncome (entries : list Entry.t) : JS.num :=
  JS.reduce_sum amount_of (List.filter (has_type Income) (filled entries)).

Definition totalExpense (entries : list Entry.t) : JS.num :=
  JS.reduce_sum amount_of (List.filter (has_type Expense) (filled entries)).

Definition currentBalance (entries : list Entry.t) (initialBalance : string)
    : JS.num :=
  (JS.Number_or_0 initialBalance + totalIncome entries - totalExpense entries)%float.

(** ** Chart data *)

Definition groupKey (tz : Z) (period : Period) : string -> string :=
  match period with
  | DayP => fun d => d
  | WeekP => parseWeek tz
  | MonthP => parseMonth
  | YearP => parseYear
  end.

(** The body of [sorted.forEach]. *)
Definition add_to_group (key : string -> string)
    (groups : gmap string Group.t) (e : Entry.t) : gmap string Group.t :=
  let k := key (Entry.date e) in
  let g := default Group.zero (groups !! k) in
  if has_type Income e
  then <[k := Group.mk (Group.income g + amount_of e)%float (Group.expense g)]> groups
  else <[k := Group.mk (Group.income g) (Group.expense g + amount_of e)%float]> groups.

Definition make_groups (key : string -> string) (sorted : list Entry.t)
    : gmap string Group.t :=
  fold_left (add_to_group key) sorted ∅.

(** [Object.keys(groups).sort()]. *)
Definition sorted_keys (groups : gmap string Group.t) : list string :=
  JS.sort String.leb (map fst (map_to_list groups)).

(** [a.date.localeCompare(b.date) <= 0]; a date input gives the empty
    string or [YYYY-MM-DD], which collate as their code units do. *)
Definition by_date (a b : Entry.t) : bool :=
  String.leb (Entry.date a) (Entry.date b).

(** [plans.find((p) => p.month === k)]. *)
Definition find_plan (plans : list Plan.t) (k : string) : option Plan.t :=
  List.find (fun p => String.eqb (Plan.month p) k) plans.

(** [plan ? Number(plan.targetBalance) || null : null]. *)
Definition plan_balance (plans : list Plan.t) (k : string) : option JS.num :=
  match find_plan plans k with
  | Some plan => JS.Number_or_null (Plan.targetBalance plan)
  | None => None
  end.

(** [keys.map], with the running [balance] threaded through. A key of
    [keys] is a key of [groups]; were it not, the row is left out. *)
Fixpoint chart_rows (groups : gmap string Group.t) (plans : list Plan.t)
    (balance : JS.num) (keys : list string) : list Row.t :=
  match keys with
  | [] => []
  | k :: keys' =>
      match groups !! k with
      | Some g =>
          let balance' := (balance + (Group.income g - Group.expense g))%float in
          Row.mk k balance' (Group.income g) (Group.expense g)
            (plan_balance plans k)
          :: chart_rows groups plans balance' keys'
      | None => chart_rows groups plans balance keys'
      end
  end.

Definition balanceChartData (tz : Z) (entries : list Entry.t) (period : Period)
    (initialBalance : string) (plans : list Plan.t) : list Row.t :=
  match filled entries with
  | [] => []
  | _ :: _ =>
      let sorted := JS.sort by_date (filled entries) in
      let groups := make_groups (groupKey tz period) sorted in
      chart_rows groups plans (JS.Number_or_0 initialBalance) (sorted_keys groups)
  end.

(** ** Plan vs actual *)

Definition variance_row (entries : list Entry.t) (p : Plan.t) : VRow.t :=
  let monthEntries :=
    List.filter (fun e => String.eqb (parseMonth (Entry.date e)) (Plan.month p))
      (filled entries) in
  let actualIncome :=
    JS.reduce_sum amount_of (List.filter (has_type Income) monthEntries) in
  let actualExpense :=
    JS.reduce_sum amount_of (List.filter (has_type Expense) monthEntries) in
  VRow.mk (Plan.month p)
    (JS.Number_or_0 (Plan.plannedIncome p)) actualIncome
    (JS.Number_or_0 (Plan.plannedExpense p)) actualExpense
    (JS.Number_or_0 (Plan.targetBalance p))
    (actualIncome - JS.Number_or_0 (Plan.plannedIncome p))%float
    (actualExpense - JS.Number_or_0 (Plan.plannedExpense p))%float.

(** [a.month.localeCompare(b.month) <= 0], as the code units compare; this
    is the collation for months of the form [YYYY-MM]. *)
Definition by_month (a b : VRow.t) : bool :=
  String.leb (VRow.month a) (VRow.month b).

Definition planVsActual (plans : list Plan.t) (entries : list Entry.t)
    : list VRow.t :=
  match plans with
  | [] => []
  | _ :: _ => JS.sort by_month (map (variance_row entries) plans)
  end.

(** ** Plans *)

Definition set_id (i : string) (p : Plan.t) : Plan.t :=
  Plan.mk i (Plan.month p) (Plan.targetBalance p) (Plan.plannedIncome p)
    (Plan.plannedExpense p).

(** [addPlan], as a function of the form and of the plans it is applied
    to; the result is the next value of [plans]. *)
Definition addPlan (planForm : Plan.t) (plans : list Plan.t) : list Plan.t :=
  if negb (JS.truthy (Plan.targetBalance planForm))
     && negb (JS.truthy (Plan.plannedIncome planForm))
     && negb (JS.truthy (Plan.plannedExpense planForm))
  then plans
  else
    let existing :=
      JS.findIndex (fun p => String.eqb (Plan.month p) (Plan.month planForm)) plans in
    if 0 <=? existing
    then imap (fun i pl =>
                 if Z.of_nat i =? existing then set_id (Plan.id pl) planForm else pl)
           plans
    else plans ++ [planForm].

(** The handler of the plan table's delete button. *)
Definition deletePlan (i : string) (plans : list Plan.t) : list Plan.t :=
  List.filter (fun x => negb (String.eqb (Plan.id x) i)) plans.

(** ** The engine under the names of its specification *)

Module Summary.
Record t : Type :=
  mk { totalIncome : JS.num; totalExpense : JS.num; currentBalance : JS.num }.
End Summary.

Definition bucketKey (tz : Z) (date : string) (granularity : Period) : string :=
  groupKey tz granularity date.

Definition summarize (entries : list Entry.t) (initialBalance : string) : Summary.t :=
  Summary.mk (totalIncome entries) (totalExpense entries)
    (currentBalance entries initialBalance).

Definition buildSeries (tz : Z) (entries : list Entry.t) (granularity : Period)
    (initialBalance : string) (plans : list Plan.t) : list Row.t :=
  balanceChartData tz entries granularity initialBalance plans.

Definition buildVariance (plans : list Plan.t) (entries : list Entry.t)
    : list VRow.t :=
  planVsActual plans entries.

(** ** Entries: the form, the table and the receipts *)

(** [uid()] and [new Date().toISOString().slice(0, 10)] read the clock and
    the random source; the handlers below take their results as arguments
    ([id], [today]). *)

(** [emptyEntry()]. *)
Definition emptyEntry (id today : string) : Entry.t :=
  Entry.mk id today Expense "食費" "" "" "" None "".

(** [emptyPlan()], with [month] for
    [new Date().toISOString().slice(0, 7)]. *)
Definition emptyPlan (id month : string) : Plan.t :=
  Plan.mk id month "" "" "".

(** A field of an entry with its new value: the [(f, v)] that the inputs
    and selects of the form and of the table pass on. *)
Inductive Edit : Type :=
| SetDate (v : string)
| SetType (v : EntryType)
| SetCategory (v : string)
| SetDescription (v : string)
| SetAmount (v : string)
| SetMemo (v : string).

(** [{ ...r, [f]: v }]. *)
Definition apply_edit (ed : Edit) (r : Entry.t) : Entry.t :=
  match ed with
  | SetDate v =>
      Entry.mk (Entry.id r) v (Entry.type r) (Entry.category r)
        (Entry.description r) (Entry.amount r) (Entry.memo r)
        (Entry.receipt r) (Entry.receiptName r)
  | SetType v =>
      Entry.mk (Entry.id r) (Entry.date r) v (Entry.category r)
        (Entry.description r) (Entry.amount r) (Entry.memo r)
        (Entry.receipt r) (Entry.receiptName r)
  | SetCategory v =>
      Entry.mk (Entry.id r) (Entry.date r) (Entry.type r) v
        (Entry.description r) (Entry.amount r) (Entry.memo r)
        (Entry.receipt r) (Entry.receiptName r)
  | SetDescription v =>
      Entry.mk (Entry.id r) (Entry.date r) (Entry.type r) (Entry.category r)
        v (Entry.amount r) (Entry.memo r)
        (Entry.receipt r) (Entry.receiptName r)
  | SetAmount v =>
      Entry.mk (Entry.id r) (Entry.date r) (Entry.type r) (Entry.category r)
        (Entry.description r) v (Entry.memo r)
        (Entry.receipt r) (Entry.receiptName r)
  | SetMemo v =>
      Entry.mk (Entry.id r) (Entry.date r) (Entry.type r) (Entry.category r)
        (Entry.description r) (Entry.amount r) v
        (Entry.receipt r) (Entry.receiptName r)
  end.

(** [{ ...r, id }]. *)
Definition set_entry_id (id : string) (r : Entry.t) : Entry.t :=
  Entry.mk id (Entry.date r) (Entry.type r) (Entry.category r)
    (Entry.description r) (Entry.amount r) (Entry.memo r)
    (Entry.receipt r) (Entry.receiptName r).

(** [{ ...r, receipt: e.target.result, receiptName: file.name }]. *)
Definition set_receipt (data name : string) (r : Entry.t) : Entry.t :=
  Entry.mk (Entry.id r) (Entry.date r) (Entry.type r) (Entry.category r)
    (Entry.description r) (Entry.amount r) (Entry.memo r) (Some data) name.

(** [handleFormChange(f, v)], on [formData]. *)
Definition handleFormChange (ed : Edit) (formData : Entry.t) : Entry.t :=
  apply_edit ed formData.

(** [addFromForm]: the next [entries] and [formData]. [id] is the [uid()]
    of the new entry, [id'] and [today] make the fresh form. *)
Definition addFromForm (id id' today : string) (formData : Entry.t)
    (entries : list Entry.t) : list Entry.t * Entry.t :=
  if negb (JS.truthy (Entry.amount formData))
     || negb (JS.truthy (Entry.description formData))
  then (entries, formData)
  else ((entries ++ [set_entry_id id formData])%list, emptyEntry id' today).

(** [updateRow(id, f, v)]. *)
Definition updateRow (id : string) (ed : Edit) (entries : list Entry.t)
    : list Entry.t :=
  map (fun r => if String.eqb (Entry.id r) id then apply_edit ed r else r) entries.

(** [addTableRow]. *)
Definition addTableRow (id today : string) (entries : list Entry.t)
    : list Entry.t :=
  (entries ++ [emptyEntry id today])%list.

(** [deleteRow(id)]. *)
Definition deleteRow (id : string) (entries : list Entry.t) : list Entry.t :=
  List.filter (fun r => negb (String.eqb (Entry.id r) id)) entries.

Inductive Target : Type :=
| TForm
| TTable.

(** [handleReceiptUpload(file, target, id)] once the reader has loaded:
    [file] is [None] when no file was chosen, else the data URL read from
    it and its name; the state is [formData] with [entries]. *)
Definition handleReceiptUpload (file : option (string * string))
    (target : Target) (id : string) (st : Entry.t * list Entry.t)
    : Entry.t * list Entry.t :=
  match file with
  | None => st
  | Some (data, name) =>
      match target with
      | TForm => (set_receipt data name (fst st), snd st)
      | TTable =>
          (fst st,
           map (fun r => if String.eqb (Entry.id r) id
                         then set_receipt data name r else r) (snd st))
      end
  end.

(** ** CSV export *)

(** The values of [TYPES] as the export writes them. *)
Definition type_label (ty : EntryType) : string :=
  match ty with
  | Income => "収入"
  | Expense => "支出"
  end.

(** U+FEFF as the three bytes the Blob holds. *)
Definition BOM : string :=
  String (ascii_of_nat 239) (String (ascii_of_nat 187)
    (String (ascii_of_nat 191) EmptyString)).

Definition LF : ascii := ascii_of_nat 10.

Definition csv_header : string :=
  "日付,種別,カテゴリ,内容,金額,メモ" +:+ String LF EmptyString.

Definition DQ : string := String (ascii_of_nat 34) EmptyString.

(** One line of the export:
    [date,type,category,"description",amount,"memo"]; [r.memo || ""] is
    [r.memo]. *)
Definition csv_row (r : Entry.t) : string :=
  Entry.date r +:+ "," +:+ type_label (Entry.type r) +:+ ","
  +:+ Entry.category r +:+ "," +:+ DQ +:+ Entry.description r +:+ DQ +:+ ","
  +:+ Entry.amount r +:+ "," +:+ DQ +:+ Entry.memo r +:+ DQ.

(** [xs.join("\n")]. *)
Fixpoint join_lines (xs : list string) : string :=
  match xs with
  | [] => ""
  | [x] => x
  | x :: xs' => x +:+ String LF (join_lines xs')
  end.

(** [exportCSV]: the text handed to the Blob, [None] when the handler
    returns before building it. *)
Definition exportCSV (entries : list Entry.t) : option string :=
  match filled entries with
  | [] => None
  | _ :: _ => Some (BOM +:+ csv_header +:+ join_lines (map csv_row (filled entries)))
  end.

(** ** Display *)

(** [formatYen(v)] for a string [v] (an amount, a plan value, the initial
    balance). [toLocaleString] is the host's formatting of a number that is
    not negative. *)
Definition formatYen (toLocaleString : JS.num -> string) (v : string) : string :=
  match v with
  | EmptyString => "—"
  | _ =>
      let n := JS.Number v in
      if is_nan n then "—"
      else (if (n <? 0)%float then "-" else "") +:+ "¥"
           +:+ toLocaleString (abs n)
  end.

(** [balanceChartData.some((d) => d.計画残高)]: whether the chart draws the
    plan line. *)
Definition showPlanLine (series : list Row.t) : bool :=
  existsb (fun d => match Row.planBalance d with
                    | Some z => negb (JS.falsy z)
                    | None => false
                    end) series.

(** The plan table lists [[...plans].sort(...)] by month; the comparison is
    that of [by_month]. *)
Definition by_plan_month (a b : Plan.t) : bool :=
  String.leb (Plan.month a) (Plan.month b).

Definition planTable (plans : list Plan.t) : list Plan.t :=
  JS.sort by_plan_month plans.

(** ** Notions of the specification *)

(** A sum taken from the left, starting from [a]: the order of the terms
    matters, since each addition rounds. *)
Definition sum_from {A : Type} (a : JS.num) (f : A -> JS.num) (l : list A)
    : JS.num :=
  fold_left (fun s x => (s + f x)%float) l a.

(** What the specification calls a bucket: the entries of a list whose
    period key is [k], and the sum of their amounts by type, in the order of
    the list. *)
Definition in_bucket (key : string -> string) (k : string) (e : Entry.t) : bool :=
  String.eqb (key (Entry.date e)) k.

Definition bucket_sum (ty : EntryType) (key : string -> string) (k : string)
    (l : list Entry.t) : JS.num :=
  JS.reduce_sum amount_of
    (List.filter (fun e => has_type ty e && in_bucket key k e) l).

(** The comparison of a sort by a string key, and the elements of a list
    that have a given key, in the order of the list. *)
Definition key_le {A : Type} (key : A -> string) (a b : A) : bool :=
  String.leb (key a) (key b).

Definition with_key {A : Type} (key : A -> string) (k : string) (l : list A)
    : list A :=
  List.filter (fun a => String.eqb (key a) k) l.

(** The filled entries in the order in which the chart adds them up. *)
Definition by_date_order (entries : list Entry.t) : list Entry.t :=
  JS.sort by_date (filled entries).

(** The running balance: from [b], each row adds its income less its
    expense, in the order of the rows. *)
Definition running_balance (b : JS.num) (rows : list Row.t) : JS.num :=
  fold_left (fun bal r => (bal + (Row.income r - Row.expense r))%float) rows b.

Definition row4 (r : Row.t) : string * JS.num * JS.num * JS.num :=
  (Row.period r, Row.balance r, Row.income r, Row.expense r).

(** Following the specification's words: an entry is filled when its
    description is not empty or its amount is not empty and reads as a
    number other than zero. *)
Definition words_filled (e : Entry.t) : bool :=
  JS.truthy (Entry.description e)
  || (JS.truthy (Entry.amount e) && negb (JS.falsy (JS.Number (Entry.amount e)))).

(** The value of an [<input type="month">]: [YYYY-MM]. *)
Definition is_month_form (s : string) : bool :=
  match list_ascii_of_string s with
  | [y1; y2; y3; y4; h; m1; m2] =>
      JS.is_digit y1 && JS.is_digit y2 && JS.is_digit y3 && JS.is_digit y4
      && Ascii.eqb h "-" && JS.is_digit m1 && JS.is_digit m2
  | _ => false
  end.

(** The value of an [<input type="date">]: [YYYY-MM-DD]. *)
Definition is_date_form (s : string) : bool :=
  match list_ascii_of_string s with
  | [y1; y2; y3; y4; h1; m1; m2; h2; d1; d2] =>
      JS.is_digit y1 && JS.is_digit y2 && JS.is_digit y3 && JS.is_digit y4
      && Ascii.eqb h1 "-" && JS.is_digit m1 && JS.is_digit m2
      && Ascii.eqb h2 "-" && JS.is_digit d1 && JS.is_digit d2
  | _ => false
  end.

(** What a date input delivers: the empty string, or [YYYY-MM-DD]. *)
Definition is_date_value (s : string) : bool :=
  String.eqb s "" || is_date_form s.


(** The guard of [addPlan] lets the form through when one of the three
    values is not empty. *)
Definition has_values (planForm : Plan.t) : bool :=
  JS.truthy (Plan.targetBalance planForm)
  || JS.truthy (Plan.plannedIncome planForm)
  || JS.truthy (Plan.plannedExpense planForm).

(** Following the specification's words: for the calendar date [y]-[m]-[d],
    [YYYY-Www] with [ww] the two-digit value of
    [ceil((daysSinceJan1 + weekdayOfJan1 + 1) / 7)], days counted in whole
    days from January 1 of [y] and weekdays from 0 (Sunday) to 6. *)
Definition week_key_formula (y m d : Z) : string :=
  let daysSinceJan1 := JSDate.MakeDay y (m - 1) d - JSDate.MakeDay y 0 1 in
  let weekdayOfJan1 := JSDate.WeekDay (JSDate.MakeDay y 0 1) in
  JS.toString y +:+ "-W"
  +:+ JS.padStart2
        (JS.toString (JSDate.ceil_div (daysSinceJan1 + weekdayOfJan1 + 1) 7)).

(** What [addPlan] does with a form that passes its guard, read from left
    to right: the first plan of the form's month takes the form's values
    and keeps its id; with no such plan the form goes to the end. *)
Fixpoint upsert_first (planForm : Plan.t) (plans : list Plan.t) : list Plan.t :=
  match plans with
  | [] => [planForm]
  | p :: plans' =>
      if String.eqb (Plan.month p) (Plan.month planForm)
      then set_id (Plan.id p) planForm :: plans'
      else p :: upsert_first planForm plans'
  end.

(** The three values of a plan. *)
Definition plan_values (p : Plan.t) : string * string * string :=
  (Plan.targetBalance p, Plan.plannedIncome p, Plan.plannedExpense p).

(** The number of line feeds of a text, and the entries whose exported
    fields have none. *)
Definition count_LF (s : string) : nat :=
  length (List.filter (Ascii.eqb LF) (list_ascii_of_string s)).

Definition line_free (e : Entry.t) : bool :=
  (count_LF (Entry.date e) =? 0)%nat && (count_LF (Entry.category e) =? 0)%nat
  && (count_LF (Entry.description e) =? 0)%nat
  && (count_LF (Entry.amount e) =? 0)%nat && (count_LF (Entry.memo e) =? 0)%nat.


(** ** Example data *)

(** An entry with the fields the examples give; the others are as blank. *)
Definition entry (date : string) (type : EntryType) (amount description : string)
    : Entry.t :=
  Entry.mk "" date type "" description amount "" None "".

Definition ex_entries : list Entry.t :=
  [entry "2024-01-05" Expense "1000" "lunch";
   entry "2024-02-10" Income "5000" "salary"].

Definition ex_plan : Plan.t := Plan.mk "" "2024-01" "" "4000" "900".

Definition ex_draft : Entry.t := entry "2024-03-01" Expense "" "".

Definition zero_target_plan : Plan.t := Plan.mk "p1" "2024-01" "0" "" "".


Definition blank_form : Plan.t := Plan.mk "p9" "2024-05" "" "" "".


Definition zero_amount_entry : Entry.t := entry "2024-03-01" Expense "0" "".

(** Three amounts whose sum depends on the order of the additions. *)
Definition tenths : list Entry.t :=
  [entry "2024-01-05" Income "0.1" "a";
   entry "2024-01-05" Income "0.2" "b";
   entry "2024-01-05" Income "0.3" "c"].

Definition mixed_amounts : list Entry.t :=
  [entry "2024-01-05" Income "1e3" "fee";
   entry "2024-01-06" Income "250.5" "refund";
   entry "2024-01-07" Expense "abc" "unreadable";
   entry "2024-01-08" Expense "0.25" "stamp"].


(** Two entries of one year, with the initial balance ["0.1"]. *)
Definition one_year : list Entry.t :=
  [entry "2024-01-05" Income "0.2" "fee";
   entry "2024-03-06" Expense "0.3" "stamp"].

(** * Facts about the built-ins *)

Section SortFacts.
Context {A : Type} (le : A -> A -> bool).
Let R (a b : A) : Prop := le a b = true.

Lemma insert_sorted_perm x l : JS.insert_sorted le x l ≡ₚ x :: l.
Proof.
  induction l as [|y l IH]; simpl; [done|].
  destruct (le x y); [done|]. rewrite IH. apply Permutation_swap.
Qed.

Lemma sort_perm l : JS.sort le l ≡ₚ l.
Proof.
  induction l as [|x l IH]; simpl; [done|].
  by rewrite insert_sorted_perm, IH.
Qed.

Lemma sort_length l : length (JS.sort le l) = length l.
Proof. apply Permutation_length, sort_perm. Qed.

(** A list already in order is left as it is. *)
Lemma insert_sorted_head x l :
  Forall (R x) l -> JS.insert_sorted le x l = x :: l.
Proof.
  destruct 1 as [|y l Hy _]; simpl; [done|].
  unfold R in Hy. by rewrite Hy.
Qed.

Lemma sort_of_sorted l : StronglySorted R l -> JS.sort le l = l.
Proof.
  induction 1 as [|x l Hl IH Hx]; simpl; [done|].
  rewrite IH. by apply insert_sorted_head.
Qed.

Hypothesis le_total : forall a b, le a b = true \/ le b a = true.
Hypothesis le_trans : forall a b c, le a b = true -> le b c = true -> le a c = true.

Lemma insert_sorted_sorted x l :
  StronglySorted R l -> StronglySorted R (JS.insert_sorted le x l).
Proof.
  induction 1 as [|y l Hl IH Hy]; simpl.
  - repeat constructor.
  - destruct (le x y) eqn:Hxy.
    + constructor; [by constructor|].
      constructor; [done|].
      eapply Forall_impl; [exact Hy|]. intros z Hz. by eapply le_trans.
    + constructor; [done|].
      rewrite insert_sorted_perm. constructor; [|done].
      destruct (le_total x y) as [H|H]; [congruence|done].
Qed.

Lemma sort_sorted l : StronglySorted R (JS.sort le l).
Proof.
  induction l as [|x l IH]; simpl; [constructor|].
  by apply insert_sorted_sorted.
Qed.
End SortFacts.

(** Sorting commutes with a map that leaves the comparison as it is. *)
Lemma insert_sorted_map {A} (le : A -> A -> bool) (f : A -> A) x l :
  (forall a b, le (f a) (f b) = le a b) ->
  JS.insert_sorted le (f x) (map f l) = map f (JS.insert_sorted le x l).
Proof.
  intros Hf. induction l as [|y l IH]; simpl; [done|].
  rewrite Hf. destruct (le x y); simpl; [done|]. by rewrite IH.
Qed.

Lemma sort_map {A} (le : A -> A -> bool) (f : A -> A) l :
  (forall a b, le (f a) (f b) = le a b) ->
  JS.sort le (map f l) = map f (JS.sort le l).
Proof.
  intros Hf. induction l as [|x l IH]; simpl; [done|].
  by rewrite IH, insert_sorted_map.
Qed.

(** The order of strings. *)

Lemma ascii_compare_lt_trans a b c :
  Ascii.compare a b = Lt -> Ascii.compare b c = Lt -> Ascii.compare a c = Lt.
Proof.
  unfold Ascii.compare. rewrite !N.compare_lt_iff. lia.
Qed.

Lemma string_compare_refl s : String.compare s s = Eq.
Proof.
  induction s as [|c s IH]; simpl; [done|].
  unfold Ascii.compare. by rewrite N.compare_refl.
Qed.

Lemma string_compare_lt_trans s1 s2 s3 :
  String.compare s1 s2 = Lt -> String.compare s2 s3 = Lt ->
  String.compare s1 s3 = Lt.
Proof.
  revert s2 s3. induction s1 as [|a s1 IH]; intros [|b s2] [|c s3]; simpl; try done.
  destruct (Ascii.compare a b) eqn:Hab; try done;
    destruct (Ascii.compare b c) eqn:Hbc; try done; intros H1 H2.
  - apply Ascii.compare_eq_iff in Hab, Hbc. subst.
    unfold Ascii.compare. rewrite N.compare_refl. eauto.
  - apply Ascii.compare_eq_iff in Hab. subst. by rewrite Hbc.
  - apply Ascii.compare_eq_iff in Hbc. subst. by rewrite Hab.
  - by rewrite (ascii_compare_lt_trans a b c).
Qed.

Lemma string_leb_spec a b :
  String.leb a b = true <-> String.ltb a b = true \/ a = b.
Proof.
  unfold String.leb, String.ltb. split.
  - destruct (String.compare a b) eqn:H; try done; [|by left].
    right. by apply String.compare_eq_iff.
  - intros [H| ->]; [by destruct (String.compare a b)|].
    by rewrite string_compare_refl.
Qed.

Lemma string_ltb_trans a b c :
  String.ltb a b = true -> String.ltb b c = true -> String.ltb a c = true.
Proof.
  unfold String.ltb.
  destruct (String.compare a b) eqn:H1; try done.
  destruct (String.compare b c) eqn:H2; try done.
  by rewrite (string_compare_lt_trans a b c).
Qed.

Lemma string_leb_trans a b c :
  String.leb a b = true -> String.leb b c = true -> String.leb a c = true.
Proof.
  rewrite !string_leb_spec. intros [H1| ->] [H2| ->]; eauto using string_ltb_trans.
Qed.

Lemma string_ltb_irrefl a : String.ltb a a = false.
Proof. unfold String.ltb. by rewrite string_compare_refl. Qed.


Lemma string_leb_refl a : String.leb a a = true.
Proof. apply string_leb_spec. by right. Qed.

(** The sort is stable: among the elements with one key the order of the
    input is kept; so a sort by a key is settled by the input's elements
    key by key. *)
Section Stable.
Context {A : Type} (key : A -> string).

Lemma insert_sorted_stable k x l :
  with_key key k (JS.insert_sorted (key_le key) x l) = with_key key k (x :: l).
Proof.
  induction l as [|y l IH]; [done|].
  cbn [JS.insert_sorted]. destruct (key_le key x y) eqn:Hxy; [done|].
  unfold with_key in *. cbn [List.filter] in *. rewrite IH.
  destruct (String.eqb_spec (key x) k) as [Hx|Hx];
    destruct (String.eqb_spec (key y) k) as [Hy|Hy]; try done.
  unfold key_le in Hxy. by rewrite Hx, Hy, string_leb_refl in Hxy.
Qed.

Lemma sort_stable k l : with_key key k (JS.sort (key_le key) l) = with_key key k l.
Proof.
  induction l as [|x l IH]; [done|].
  cbn [JS.sort]. rewrite insert_sorted_stable.
  unfold with_key in *. cbn [List.filter]. by rewrite IH.
Qed.

Lemma sorted_by_key_unique l1 l2 :
  StronglySorted (fun a b => key_le key a b = true) l1 ->
  StronglySorted (fun a b => key_le key a b = true) l2 ->
  (forall k, with_key key k l1 = with_key key k l2) ->
  l1 = l2.
Proof.
  intros H1. revert l2. induction H1 as [|x l1 Hl1 IH Hx]; intros l2 H2 Hk.
  - destruct l2 as [|y l2]; [done|].
    specialize (Hk (key y)). unfold with_key in Hk. cbn in Hk.
    by rewrite String.eqb_refl in Hk.
  - destruct H2 as [|y l2 Hl2 Hy].
    + specialize (Hk (key x)). unfold with_key in Hk. cbn in Hk.
      by rewrite String.eqb_refl in Hk.
    + assert (Hin : forall (a : A) l, a ∈ with_key key (key a) (a :: l)).
      { intros a l. unfold with_key. cbn. rewrite String.eqb_refl. left. }
      assert (Hkey : key x = key y).
      { apply String.leb_antisym.
        - pose proof (Hin y l2) as Hy'. rewrite <- Hk in Hy'.
          unfold with_key in Hy'. apply list_elem_of_In, filter_In in Hy' as [Hy' _].
          destruct Hy' as [->|Hy']; [apply string_leb_refl|].
          rewrite Forall_forall in Hx. apply (Hx y), list_elem_of_In, Hy'.
        - pose proof (Hin x l1) as Hx'. rewrite Hk in Hx'.
          unfold with_key in Hx'. apply list_elem_of_In, filter_In in Hx' as [Hx' _].
          destruct Hx' as [->|Hx']; [apply string_leb_refl|].
          rewrite Forall_forall in Hy. apply (Hy x), list_elem_of_In, Hx'. }
      assert (x = y) as <-.
      { specialize (Hk (key x)). unfold with_key in Hk. cbn in Hk.
        rewrite <- Hkey, String.eqb_refl in Hk. congruence. }
      f_equal. apply IH; [done|]. intros k. specialize (Hk k).
      unfold with_key in *. cbn in Hk.
      destruct (String.eqb (key x) k); congruence.
Qed.

(** Two lists with the same elements under each key, in the same order,
    sort to the same list. *)
Lemma sort_by_key_ext l1 l2 :
  (forall k, with_key key k l1 = with_key key k l2) ->
  JS.sort (key_le key) l1 = JS.sort (key_le key) l2.
Proof.
  intros Hk. apply sorted_by_key_unique.
  - apply (sort_sorted (key_le key)); unfold key_le; intros;
      [apply String.leb_total|by eapply string_leb_trans].
  - apply (sort_sorted (key_le key)); unfold key_le; intros;
      [apply String.leb_total|by eapply string_leb_trans].
  - intros k. by rewrite !sort_stable.
Qed.
End Stable.

(** Sums. *)

Lemma sum_from_app {A} (f : A -> JS.num) a l1 l2 :
  sum_from a f (l1 ++ l2) = sum_from (sum_from a f l1) f l2.
Proof. apply fold_left_app. Qed.

Lemma reduce_sum_snoc {A} (f : A -> JS.num) l x :
  JS.reduce_sum f (l ++ [x]) = (JS.reduce_sum f l + f x)%float.
Proof. unfold JS.reduce_sum. by rewrite fold_left_app. Qed.

(** * Facts about dates *)

Lemma DayFromYear_step y :
  JSDate.DayFromYear (y + 1) = JSDate.DayFromYear y + JSDate.DaysInYear y.
Proof.
  unfold JSDate.DayFromYear, JSDate.DaysInYear.
  replace (y + 1 - 1969) with (y - 1968) by lia.
  replace (y + 1 - 1901) with (y - 1900) by lia.
  replace (y + 1 - 1601) with (y - 1600) by lia.
  replace (y + 1 - 1970) with (y - 1969) by lia.
  destruct (Z.eqb_spec (y mod 4) 0), (Z.eqb_spec (y mod 100) 0),
    (Z.eqb_spec (y mod 400) 0); cbn [negb]; Z.div_mod_to_equations; lia.
Qed.

Lemma DayFromYear_mono y1 y2 :
  y1 <= y2 -> JSDate.DayFromYear y1 <= JSDate.DayFromYear y2.
Proof. unfold JSDate.DayFromYear. intros. Z.div_mod_to_equations. lia. Qed.

Lemma year_up_spec fuel : forall y0 y day,
  y0 <= y -> y - y0 <= Z.of_nat fuel ->
  JSDate.DayFromYear y <= day < JSDate.DayFromYear (y + 1) ->
  JSDate.year_up fuel y0 day = y.
Proof.
  induction fuel as [|fuel IH]; intros y0 y day H0 Hf Hy; simpl.
  - lia.
  - destruct (Z.leb_spec (JSDate.DayFromYear (y0 + 1)) day) as [H|H].
    + assert (y0 <> y) by (intros ->; lia). apply IH; lia.
    + destruct (Z.eq_dec y0 y) as [|Hne]; [done|].
      pose proof (DayFromYear_mono (y0 + 1) y ltac:(lia)). lia.
Qed.

(** [YearFromDay] is ECMA-262's [YearFromTime]: the year whose days
    contain [day]. *)
Lemma YearFromDay_unique y day :
  JSDate.DayFromYear y <= day < JSDate.DayFromYear (y + 1) ->
  JSDate.YearFromDay day = y.
Proof.
  intros H. unfold JSDate.YearFromDay. apply year_up_spec; [| |done].
  - destruct (Z.leb_spec 0 day); unfold JSDate.DayFromYear in H;
      Z.div_mod_to_equations; lia.
  - rewrite Nat2Z.inj_add, Z2Nat.id by (apply Z.div_pos; lia).
    destruct (Z.leb_spec 0 day); unfold JSDate.DayFromYear in H.
    + rewrite Z.abs_eq by lia. Z.div_mod_to_equations; lia.
    + rewrite Z.abs_neq by lia. Z.div_mod_to_equations; lia.
Qed.


(** * The chart's groups *)

Lemma has_type_Expense e : has_type Expense e = negb (has_type Income e).
Proof. unfold has_type. by destruct (Entry.type e). Qed.

Lemma bucket_filter_absent ty key k l :
  existsb (in_bucket key k) l = false ->
  List.filter (fun e => has_type ty e && in_bucket key k e) l = [].
Proof.
  induction l as [|e l IH]; [done|]. simpl.
  intros [-> H]%orb_false_iff. rewrite andb_false_r. auto.
Qed.

Lemma add_to_group_lookup key m e k :
  add_to_group key m e !! k =
  if in_bucket key k e
  then (let g := default Group.zero (m !! k) in
        Some (if has_type Income e
              then Group.mk (Group.income g + amount_of e)%float (Group.expense g)
              else Group.mk (Group.income g) (Group.expense g + amount_of e)%float))
  else m !! k.
Proof.
  unfold add_to_group, in_bucket.
  destruct (String.eqb_spec (key (Entry.date e)) k) as [->|Hne];
    destruct (has_type Income e);
    by rewrite ?lookup_insert_eq, ?lookup_insert_ne by done.
Qed.

(** A group holds, for each type, the amounts of its entries added one by
    one in the order of the list, starting from what the group held. *)
Lemma fold_groups_lookup key l m k :
  fold_left (add_to_group key) l m !! k =
  if existsb (in_bucket key k) l
  then (let g := default Group.zero (m !! k) in
        Some (Group.mk
                (sum_from (Group.income g) amount_of
                   (List.filter (fun e => has_type Income e && in_bucket key k e) l))
                (sum_from (Group.expense g) amount_of
                   (List.filter (fun e => has_type Expense e && in_bucket key k e) l))))
  else m !! k.
Proof.
  revert m. induction l as [|e l IH]; intros m; [done|].
  cbn [fold_left existsb List.filter]. rewrite IH, add_to_group_lookup.
  rewrite has_type_Expense.
  destruct (existsb (in_bucket key k) l) eqn:Hl.
  - destruct (in_bucket key k e), (has_type Income e); by simpl.
  - rewrite !bucket_filter_absent by done.
    destruct (in_bucket key k e), (has_type Income e); simpl; try done.
Qed.

Lemma make_groups_lookup key l k :
  make_groups key l !! k =
  if existsb (in_bucket key k) l
  then Some (Group.mk (bucket_sum Income key k l) (bucket_sum Expense key k l))
  else None.
Proof.
  unfold make_groups. rewrite fold_groups_lookup, lookup_empty. simpl.
  by destruct (existsb _ _).
Qed.

Lemma existsb_in_bucket key k l :
  existsb (in_bucket key k) l = true <-> k ∈ map (fun e => key (Entry.date e)) l.
Proof.
  rewrite existsb_exists, list_elem_of_In, in_map_iff. unfold in_bucket.
  split; intros (e & H1 & H2); exists e.
  - by apply String.eqb_eq in H2.
  - by rewrite H1, String.eqb_refl.
Qed.

(** [Object.keys(groups).sort()]: each key once, in ascending order. *)

Lemma sorted_keys_perm (groups : gmap string Group.t) :
  sorted_keys groups ≡ₚ map fst (map_to_list groups).
Proof. apply sort_perm. Qed.

Lemma sorted_keys_NoDup (groups : gmap string Group.t) :
  NoDup (sorted_keys groups).
Proof. rewrite sorted_keys_perm. apply NoDup_fst_map_to_list. Qed.

Lemma elem_of_sorted_keys (groups : gmap string Group.t) k :
  k ∈ sorted_keys groups <-> is_Some (groups !! k).
Proof.
  rewrite sorted_keys_perm. change (map fst ?l) with (fst <$> l).
  rewrite list_elem_of_fmap. split.
  - intros ([k' g] & -> & H). apply elem_of_map_to_list in H. eauto.
  - intros [g H]. exists (k, g). by rewrite elem_of_map_to_list.
Qed.

Lemma StronglySorted_le_lt (l : list string) :
  NoDup l -> StronglySorted JS.str_le l -> StronglySorted JS.str_lt l.
Proof.
  intros Hnd. induction 1 as [|x l Hl IH Hx]; [constructor|].
  apply NoDup_cons in Hnd as [Hx' Hnd]. constructor; [auto|].
  rewrite Forall_forall in Hx |- *. intros y Hy.
  destruct (proj1 (string_leb_spec x y) (Hx y Hy)) as [H| ->]; done.
Qed.

(** The order in which [Object.keys] lists the keys is immaterial: sorting
    any two enumerations of the same keys gives the same list. *)
Lemma sort_keys_enumeration (l1 l2 : list string) :
  l1 ≡ₚ l2 -> JS.sort String.leb l1 = JS.sort String.leb l2.
Proof.
  intros H.
  assert (Hanti : AntiSymm eq JS.str_le) by (intros a b; apply String.leb_antisym).
  apply (StronglySorted_unique JS.str_le).
  - apply (sort_sorted String.leb); [apply String.leb_total|apply string_leb_trans].
  - apply (sort_sorted String.leb); [apply String.leb_total|apply string_leb_trans].
  - by rewrite !sort_perm.
Qed.

Lemma sorted_keys_sorted (groups : gmap string Group.t) :
  StronglySorted JS.str_lt (sorted_keys groups).
Proof.
  apply StronglySorted_le_lt; [apply sorted_keys_NoDup|].
  apply (sort_sorted String.leb); [apply String.leb_total|apply string_leb_trans].
Qed.

(** * The chart's rows *)

Lemma chart_rows_periods groups plans b keys :
  Forall (fun k => is_Some (groups !! k)) keys ->
  map Row.period (chart_rows groups plans b keys) = keys.
Proof.
  intros H. revert b. induction H as [|k keys [g Hg] _ IH]; intros b; [done|].
  simpl. rewrite Hg. simpl. by rewrite IH.
Qed.

Lemma chart_rows_elem groups plans b keys r :
  r ∈ chart_rows groups plans b keys ->
  Row.period r ∈ keys
  /\ groups !! Row.period r = Some (Group.mk (Row.income r) (Row.expense r))
  /\ Row.planBalance r = plan_balance plans (Row.period r).
Proof.
  revert b. induction keys as [|k keys IH]; intros b; simpl.
  - by intros ?%elem_of_nil.
  - destruct (groups !! k) as [g|] eqn:Hg.
    + intros [->|H]%elem_of_cons; simpl.
      * split; [left|]. by destruct g.
      * destruct (IH _ H) as (? & ? & ?). split; [by right|done].
    + intros H. destruct (IH _ H) as (? & ? & ?). split; [by right|done].
Qed.


Lemma chart_rows_balance groups plans b keys i r :
  chart_rows groups plans b keys !! i = Some r ->
  Row.balance r = running_balance b (take (S i) (chart_rows groups plans b keys)).
Proof.
  revert b i. induction keys as [|k keys IH]; intros b i; simpl; [done|].
  destruct (groups !! k) as [g|]; [|by apply IH].
  destruct i as [|i].
  - by intros [= <-].
  - intros H. rewrite (IH _ _ H). by destruct g.
Qed.

Lemma sorted_keys_empty : sorted_keys ∅ = [].
Proof. unfold sorted_keys. by rewrite map_to_list_empty. Qed.

(** The series is the walk over the sorted keys of the groups of the filled
    entries taken in the order of their dates; the early return gives what
    the walk gives on no entry. *)
Lemma balanceChartData_unfold tz entries period initialBalance plans :
  balanceChartData tz entries period initialBalance plans =
  let groups := make_groups (groupKey tz period) (by_date_order entries) in
  chart_rows groups plans (JS.Number_or_0 initialBalance) (sorted_keys groups).
Proof.
  unfold balanceChartData, by_date_order. by destruct (filled entries) as [|e l] eqn:Hf.
Qed.

Lemma sorted_keys_present (groups : gmap string Group.t) :
  Forall (fun k => is_Some (groups !! k)) (sorted_keys groups).
Proof. apply Forall_forall. intros k. by rewrite elem_of_sorted_keys. Qed.

Lemma series_periods tz entries period initialBalance plans :
  map Row.period (balanceChartData tz entries period initialBalance plans) =
  sorted_keys (make_groups (groupKey tz period) (by_date_order entries)).
Proof.
  rewrite balanceChartData_unfold. apply chart_rows_periods, sorted_keys_present.
Qed.

Lemma elem_of_series_keys key l k :
  k ∈ sorted_keys (make_groups key l) <-> k ∈ map (fun e => key (Entry.date e)) l.
Proof.
  rewrite elem_of_sorted_keys, make_groups_lookup, <- existsb_in_bucket.
  destruct (existsb (in_bucket key k) l); split; try done; eauto.
Qed.

Lemma by_date_order_perm entries : by_date_order entries ≡ₚ filled entries.
Proof. apply sort_perm. Qed.

Lemma elem_of_series_periods tz entries period k :
  k ∈ sorted_keys (make_groups (groupKey tz period) (by_date_order entries))
  <-> k ∈ map (fun e => groupKey tz period (Entry.date e)) (filled entries).
Proof.
  rewrite elem_of_series_keys. change (map ?f ?l) with (f <$> l).
  by rewrite (by_date_order_perm entries).
Qed.

Lemma series_length tz entries period initialBalance plans :
  length (balanceChartData tz entries period initialBalance plans) =
  length (remove_dups
            (map (fun e => groupKey tz period (Entry.date e)) (filled entries))).
Proof.
  rewrite <- (length_map Row.period), series_periods.
  apply Permutation_length, NoDup_Permutation.
  - apply sorted_keys_NoDup.
  - apply NoDup_remove_dups.
  - intros k. by rewrite elem_of_series_periods, elem_of_remove_dups.
Qed.

Lemma series_row tz entries period initialBalance plans r :
  r ∈ balanceChartData tz entries period initialBalance plans ->
  Row.income r
    = bucket_sum Income (groupKey tz period) (Row.period r) (by_date_order entries)
  /\ Row.expense r
    = bucket_sum Expense (groupKey tz period) (Row.period r) (by_date_order entries)
  /\ Row.planBalance r = plan_balance plans (Row.period r).
Proof.
  rewrite balanceChartData_unfold. cbv zeta. intros (_ & H & Hp)%chart_rows_elem.
  rewrite make_groups_lookup in H.
  destruct (existsb _ _); [|done]. by injection H as <- <-.
Qed.

Lemma filter_filter_andb {A} (p q : A -> bool) l :
  List.filter p (List.filter q l) = List.filter (fun x => q x && p x) l.
Proof.
  induction l as [|x l IH]; simpl; [done|].
  destruct (q x); simpl; [|done]. destruct (p x); by rewrite IH.
Qed.

Lemma filled_idemp entries : filled (filled entries) = filled entries.
Proof.
  unfold filled. rewrite filter_filter_andb. apply filter_ext.
  intros e. by destruct (is_filled e).
Qed.

Lemma filled_app l1 l2 : filled (l1 ++ l2) = (filled l1 ++ filled l2)%list.
Proof. apply List.filter_app. Qed.


(** * The claims *)

(** C1. For the two example entries (an expense of 1000 on 2024-01-05, an
    income of 5000 on 2024-02-10), initial balance 10000 and month
    granularity, the series is the row of 2024-01 (balance 9000, income 0,
    expense 1000) followed by the row of 2024-02 (balance 14000, income
    5000, expense 0): these four fields whatever the plans, and the whole
    rows, with no plan balance, when there is no plan. *)
Theorem C1_example_series tz :
  (forall plans,
     map row4 (buildSeries tz ex_entries MonthP "10000" plans) =
     [("2024-01", 9000%float, 0%float, 1000%float);
      ("2024-02", 14000%float, 5000%float, 0%float)])
  /\ buildSeries tz ex_entries MonthP "10000" [] =
     [Row.mk "2024-01" 9000 0 1000 None;
      Row.mk "2024-02" 14000 5000 0 None]%float.
Proof. split; [intros plans|]; by vm_compute. Qed.

(** C2. The series has one row per distinct bucket key of the filled
    entries; its periods are those keys in strictly ascending lexicographic
    order; a row's income and expense are its bucket's sums, the amounts
    added one by one in the order of the dates, and its balance is the
    initial balance to which the net (income - expense) of every row up to
    and including it has been added, row after row in the order of the
    keys; no filled entry, no row. *)
Theorem C2_series_shape tz entries granularity initialBalance plans :
  let series := buildSeries tz entries granularity initialBalance plans in
  let key := fun e => bucketKey tz (Entry.date e) granularity in
  length series = length (remove_dups (map key (filled entries)))
  /\ (forall k, k ∈ map Row.period series <-> k ∈ map key (filled entries))
  /\ StronglySorted JS.str_lt (map Row.period series)
  /\ (forall i r, series !! i = Some r ->
        Row.income r =
          bucket_sum Income (groupKey tz granularity) (Row.period r)
            (by_date_order entries)
        /\ Row.expense r =
          bucket_sum Expense (groupKey tz granularity) (Row.period r)
            (by_date_order entries)
        /\ Row.balance r =
          running_balance (JS.Number_or_0 initialBalance) (take (S i) series))
  /\ (filled entries = [] -> series = []).
Proof.
  cbv zeta. unfold buildSeries, bucketKey. repeat split.
  - apply series_length.
  - rewrite series_periods. apply elem_of_series_periods.
  - rewrite series_periods. apply elem_of_series_periods.
  - rewrite series_periods. apply sorted_keys_sorted.
  - eapply series_row, list_elem_of_lookup_2, H.
  - eapply series_row, list_elem_of_lookup_2, H.
  - rewrite balanceChartData_unfold in H |- *. by apply chart_rows_balance.
  - intros H. unfold balanceChartData. by rewrite H.
Qed.

(** C4. The totals are the sums of the amounts of the filled entries of
    each type, added one by one from zero in the order of the list, an
    amount that is not a number counting for zero, and the current balance
    is the initial balance plus the income minus the expense. Amounts are
    read as [Number] reads them: ["1e3"] is 1000, ["250.5"] is 250.5,
    ["250.0"] is 250, ["abc"] is not a number. *)
Theorem C4_summarize_totals entries initialBalance :
  let s := summarize entries initialBalance in
  Summary.totalIncome s =
    sum_from 0%float amount_of
      (List.filter (fun e => is_filled e && has_type Income e) entries)
  /\ Summary.totalExpense s =
    sum_from 0%float amount_of
      (List.filter (fun e => is_filled e && has_type Expense e) entries)
  /\ Summary.currentBalance s =
    (JS.Number_or_0 initialBalance + Summary.totalIncome s
     - Summary.totalExpense s)%float
  /\ (forall e, amount_of e =
        if is_nan (JS.Number (Entry.amount e)) then 0%float
        else if is_zero (JS.Number (Entry.amount e)) then 0%float
        else JS.Number (Entry.amount e))
  /\ map amount_of mixed_amounts = [1000; 250.5; 0; 0.25]%float
  /\ is_nan (JS.Number "abc") = true
  /\ JS.Number_or_0 "250.0" = 250%float
  /\ summarize mixed_amounts "100" = (Summary.mk 1250.5 0.25 1350.25)%float
  /\ summarize ex_entries "10000" = (Summary.mk 5000 1000 14000)%float.
Proof.
  cbv zeta. simpl. repeat split.
  - unfold totalIncome, filled, JS.reduce_sum. by rewrite filter_filter_andb.
  - unfold totalExpense, filled, JS.reduce_sum. by rewrite filter_filter_andb.
  - intros e. unfold amount_of, JS.Number_or_0, JS.falsy.
    by destruct (is_nan _), (is_zero _).
Qed.

Lemma month_sum_bucket ty entries m :
  JS.reduce_sum amount_of
    (List.filter (has_type ty)
       (List.filter (fun e => String.eqb (parseMonth (Entry.date e)) m)
          (filled entries))) =
  bucket_sum ty parseMonth m (filled entries).
Proof.
  rewrite filter_filter_andb. unfold bucket_sum, in_bucket.
  f_equal. apply List.filter_ext. intros e. apply andb_comm.
Qed.

Lemma bucket_sum_none ty key k l :
  (forall e, e ∈ l -> key (Entry.date e) <> k) -> bucket_sum ty key k l = 0%float.
Proof.
  intros H. unfold bucket_sum. rewrite bucket_filter_absent; [done|].
  destruct (existsb (in_bucket key k) l) eqn:E; [|done].
  apply existsb_exists in E as (e & He & Hk).
  apply String.eqb_eq in Hk. apply list_elem_of_In in He. by destruct (H e He).
Qed.




(** The three outputs read the entries only through [filled]. *)

Lemma summarize_filled entries b : summarize (filled entries) b = summarize entries b.
Proof.
  unfold summarize, currentBalance, totalIncome, totalExpense.
  by rewrite filled_idemp.
Qed.

Lemma balanceChartData_filled tz entries period b plans :
  balanceChartData tz (filled entries) period b plans =
  balanceChartData tz entries period b plans.
Proof. unfold balanceChartData. by rewrite filled_idemp. Qed.

Lemma planVsActual_filled plans entries :
  planVsActual plans (filled entries) = planVsActual plans entries.
Proof.
  unfold planVsActual. destruct plans as [|p plans]; [done|].
  f_equal. apply map_ext. intros q. unfold variance_row. by rewrite filled_idemp.
Qed.

Lemma elem_of_filled e entries :
  e ∈ filled entries <->
  e ∈ entries /\ (Entry.description e <> "" \/ Entry.amount e <> "").
Proof.
  unfold filled. rewrite !list_elem_of_In, filter_In. unfold is_filled.
  destruct (Entry.description e), (Entry.amount e); simpl; intuition congruence.
Qed.

(** An entry put at the end of the list is the last one added to a sum. *)
Lemma sum_filter_snoc (p : Entry.t -> bool) l e :
  JS.reduce_sum amount_of (List.filter p (l ++ [e])) =
  if p e then (JS.reduce_sum amount_of (List.filter p l) + amount_of e)%float
  else JS.reduce_sum amount_of (List.filter p l).
Proof.
  rewrite List.filter_app. simpl. destruct (p e).
  - apply reduce_sum_snoc.
  - by rewrite app_nil_r.
Qed.

Lemma total_snoc ty l e :
  JS.reduce_sum amount_of (List.filter (has_type ty) (filled (l ++ [e]))) =
  if is_filled e && has_type ty e
  then (JS.reduce_sum amount_of (List.filter (has_type ty) (filled l))
        + amount_of e)%float
  else JS.reduce_sum amount_of (List.filter (has_type ty) (filled l)).
Proof. unfold filled. rewrite !filter_filter_andb. apply sum_filter_snoc. Qed.

Lemma month_actual_snoc ty m l e :
  JS.reduce_sum amount_of
    (List.filter (has_type ty)
       (List.filter (fun x => String.eqb (parseMonth (Entry.date x)) m)
          (filled (l ++ [e])))) =
  if is_filled e && String.eqb (parseMonth (Entry.date e)) m && has_type ty e
  then (JS.reduce_sum amount_of
          (List.filter (has_type ty)
             (List.filter (fun x => String.eqb (parseMonth (Entry.date x)) m)
                (filled l)))
        + amount_of e)%float
  else JS.reduce_sum amount_of
         (List.filter (has_type ty)
            (List.filter (fun x => String.eqb (parseMonth (Entry.date x)) m)
               (filled l))).
Proof.
  unfold filled. rewrite !filter_filter_andb, sum_filter_snoc.
  by rewrite andb_assoc.
Qed.

Lemma has_type_own e : has_type (Entry.type e) e = true.
Proof. unfold has_type. by destruct (Entry.type e). Qed.

Lemma series_row_of_key tz entries period b plans k :
  k ∈ map (fun e => groupKey tz period (Entry.date e)) (filled entries) ->
  exists r, r ∈ balanceChartData tz entries period b plans /\ Row.period r = k.
Proof.
  intros Hk. apply elem_of_series_periods in Hk.
  rewrite <- (series_periods tz entries period b plans) in Hk.
  change (map ?f ?l) with (f <$> l) in Hk.
  apply list_elem_of_fmap in Hk as (r & -> & Hr). eauto.
Qed.

(** C5 (counterexample). An entry with no description and the amount ["0"]
    is not filled in the specification's words (its amount reads as zero),
    yet the code counts it: appended to the example entries it gives the
    monthly series a third row. *)
Lemma C5_counterexample :
  words_filled zero_amount_entry = false
  /\ is_filled zero_amount_entry = true
  /\ map Row.period (buildSeries 540 ex_entries MonthP "10000" [])
     = ["2024-01"; "2024-02"]
  /\ map Row.period
       (buildSeries 540 (ex_entries ++ [zero_amount_entry]) MonthP "10000" [])
     = ["2024-01"; "2024-02"; "2024-03"].
Proof. by vm_compute. Qed.

(** C5. An entry is filled when its description or its amount is not empty
    (an amount of ["0"] is not empty), and the filled entries are the only
    ones counted: the totals, the series and the variance table of a list
    are those of its filled entries. An entry appended to the list is the
    last amount added to the total of its type, and to the actual sum of
    its type in the variance row of its month, when it is filled, and
    changes neither otherwise; a filled entry of the list is one of the
    entries whose amounts make up the income or expense of the series row
    of its period; and a draft (description and amount both empty), put
    anywhere in the list, changes none of the three outputs. *)
Theorem C5_filled_only tz entries granularity b plans :
  (forall e, e ∈ filled entries <->
     e ∈ entries /\ (Entry.description e <> "" \/ Entry.amount e <> ""))
  /\ summarize entries b = summarize (filled entries) b
  /\ buildSeries tz entries granularity b plans =
     buildSeries tz (filled entries) granularity b plans
  /\ buildVariance plans entries = buildVariance plans (filled entries)
  /\ (forall e,
        totalIncome (entries ++ [e]) =
          (if is_filled e && has_type Income e
           then (totalIncome entries + amount_of e)%float
           else totalIncome entries)
        /\ totalExpense (entries ++ [e]) =
          (if is_filled e && has_type Expense e
           then (totalExpense entries + amount_of e)%float
           else totalExpense entries))
  /\ (forall p e,
        buildVariance [p] (entries ++ [e]) = [variance_row (entries ++ [e]) p]
        /\ VRow.actualIncome (variance_row (entries ++ [e]) p) =
          (if is_filled e && String.eqb (parseMonth (Entry.date e)) (Plan.month p)
              && has_type Income e
           then (VRow.actualIncome (variance_row entries p) + amount_of e)%float
           else VRow.actualIncome (variance_row entries p))
        /\ VRow.actualExpense (variance_row (entries ++ [e]) p) =
          (if is_filled e && String.eqb (parseMonth (Entry.date e)) (Plan.month p)
              && has_type Expense e
           then (VRow.actualExpense (variance_row entries p) + amount_of e)%float
           else VRow.actualExpense (variance_row entries p)))
  /\ (forall e, e ∈ filled entries ->
        let k := bucketKey tz (Entry.date e) granularity in
        let bucket :=
          List.filter (fun x => has_type (Entry.type e) x
                                && in_bucket (groupKey tz granularity) k x)
            (by_date_order entries) in
        exists r, r ∈ buildSeries tz entries granularity b plans
                  /\ Row.period r = k
                  /\ e ∈ bucket
                  /\ match Entry.type e with
                     | Income => Row.income r
                     | Expense => Row.expense r
                     end = JS.reduce_sum amount_of bucket)
  /\ (forall l1 d l2, entries = (l1 ++ d :: l2)%list ->
        Entry.description d = "" -> Entry.amount d = "" ->
        summarize entries b = summarize (l1 ++ l2) b
        /\ buildSeries tz entries granularity b plans =
           buildSeries tz (l1 ++ l2) granularity b plans
        /\ buildVariance plans entries = buildVariance plans (l1 ++ l2)).
Proof.
  unfold buildSeries, buildVariance, bucketKey.
  split; [intros e; apply elem_of_filled|]. split; [by rewrite summarize_filled|].
  split; [by rewrite balanceChartData_filled|].
  split; [by rewrite planVsActual_filled|].
  split; [|split; [|split]].
  - intros e. unfold totalIncome, totalExpense. by rewrite !total_snoc.
  - intros p e. split; [done|]. unfold variance_row.
    cbn [VRow.actualIncome VRow.actualExpense]. by rewrite !month_actual_snoc.
  - intros e He. cbv zeta.
    destruct (series_row_of_key tz entries granularity b plans
                (groupKey tz granularity (Entry.date e))) as (r & Hr & Hk).
    { change (map ?f ?l) with (f <$> l). apply list_elem_of_fmap. eauto. }
    exists r. split; [done|]. split; [done|]. split.
    + apply list_elem_of_In, filter_In. split.
      * apply list_elem_of_In. by rewrite by_date_order_perm.
      * unfold in_bucket. by rewrite has_type_own, String.eqb_refl.
    + destruct (series_row _ _ _ _ _ _ Hr) as (Hi & Hx & _).
      rewrite Hk in Hi, Hx. by destruct (Entry.type e).
  - intros l1 d l2 -> Hd Ha.
    assert (Hf : filled (l1 ++ d :: l2) = filled (l1 ++ l2)).
    { rewrite !filled_app. f_equal. unfold filled at 1. simpl.
      unfold is_filled. by rewrite Hd, Ha. }
    rewrite <- (summarize_filled (l1 ++ d :: l2)),
      <- (balanceChartData_filled _ (l1 ++ d :: l2)),
      <- (planVsActual_filled _ (l1 ++ d :: l2)), Hf.
    by rewrite summarize_filled, balanceChartData_filled, planVsActual_filled.
Qed.

Lemma C5_filled_only_witness :
  (summarize (entry "2024-01-05" Expense "1000" "lunch" :: ex_draft
              :: [entry "2024-02-10" Income "5000" "salary"]) "10000" =
     summarize ex_entries "10000"
   /\ buildSeries 540 (entry "2024-01-05" Expense "1000" "lunch" :: ex_draft
              :: [entry "2024-02-10" Income "5000" "salary"]) MonthP "10000" [ex_plan] =
     buildSeries 540 ex_entries MonthP "10000" [ex_plan]
   /\ buildVariance [ex_plan] (entry "2024-01-05" Expense "1000" "lunch" :: ex_draft
              :: [entry "2024-02-10" Income "5000" "salary"]) =
     buildVariance [ex_plan] ex_entries)
  /\ exists r,
       r ∈ buildSeries 540 (entry "2024-01-05" Expense "1000" "lunch" :: ex_draft
              :: [entry "2024-02-10" Income "5000" "salary"]) MonthP "10000" [ex_plan]
       /\ Row.period r = "2024-02" /\ Row.income r = 5000%float.
Proof.
  pose proof (C5_filled_only 540
       (entry "2024-01-05" Expense "1000" "lunch" :: ex_draft
          :: [entry "2024-02-10" Income "5000" "salary"])
       MonthP "10000" [ex_plan]) as (_ & _ & _ & _ & _ & _ & Hc & Hd).
  split.
  - exact (Hd [entry "2024-01-05" Expense "1000" "lunch"] ex_draft
             [entry "2024-02-10" Income "5000" "salary"] eq_refl eq_refl eq_refl).
  - destruct (Hc (entry "2024-02-10" Income "5000" "salary"))
      as (r & Hr & Hk & _ & Hs).
    + vm_compute. right. left.
    + exists r. split; [done|]. split; [done|].
      etransitivity; [exact Hs|]. by vm_compute.
Defined.

Lemma NoDup_all_eq {A} (y : A) (l : list A) :
  NoDup l -> (forall x, x ∈ l -> x = y) -> l <> [] -> l = [y].
Proof.
  intros Hnd Hall Hne. destruct l as [|a [|b l]]; [done| |].
  - f_equal. apply Hall. by left.
  - apply NoDup_cons in Hnd as [Ha _]. destruct Ha.
    rewrite (Hall a), (Hall b); [by left|right; by left|by left].
Qed.

Lemma bucket_sum_all ty key k l :
  (forall e, e ∈ l -> key (Entry.date e) = k) ->
  bucket_sum ty key k l = JS.reduce_sum amount_of (List.filter (has_type ty) l).
Proof.
  intros H. unfold bucket_sum. f_equal.
  induction l as [|e l IH]; [done|]. simpl.
  assert (in_bucket key k e = true) as ->.
  { unfold in_bucket. apply String.eqb_eq, H. by left. }
  rewrite andb_true_r, IH; [done|]. intros e' He'. apply H. by right.
Qed.

(** C6 (counterexample). An income of 0.2 and an expense of 0.3 in 2024
    with the initial balance 0.1: the year series has one row, and its
    balance, 0.1 + (0.2 - 0.3), is not the current balance,
    (0.1 + 0.2) - 0.3. *)
Lemma C6_counterexample :
  Forall (fun e => bucketKey 540 (Entry.date e) YearP = "2024") (filled one_year)
  /\ exists r,
       last (buildSeries 540 one_year YearP "0.1" []) = Some r
       /\ Row.balance r
          = (JS.Number "0.1" + (JS.Number "0.2" - JS.Number "0.3"))%float
       /\ Summary.currentBalance (summarize one_year "0.1")
          = (JS.Number "0.1" + JS.Number "0.2" - JS.Number "0.3")%float
       /\ PrimFloat.eqb (Row.balance r)
            (Summary.currentBalance (summarize one_year "0.1")) = false.
Proof.
  split; [by repeat constructor|].
  eexists. split; [by vm_compute|]. by vm_compute.
Qed.

(** C6. When the filled entries all fall in one year and there is at least
    one, the series by year is a single row: its income and expense are the
    amounts of each type added in the order of the dates, and its balance
    is the initial balance plus the difference of the two, while the
    current balance of the summary is the initial balance plus the total
    income, minus the total expense; when the filled entries are listed in
    the order of their dates the row's income and expense are the totals.
    For the example entries both balances are 14000. *)
Theorem C6_year_crosscheck tz entries b y
    (Hyear : forall e, e ∈ filled entries -> bucketKey tz (Entry.date e) YearP = y)
    (Hfilled : filled entries <> []) :
  (exists r,
     buildSeries tz entries YearP b [] = [r]
     /\ Row.period r = y
     /\ Row.income r =
          JS.reduce_sum amount_of
            (List.filter (has_type Income) (by_date_order entries))
     /\ Row.expense r =
          JS.reduce_sum amount_of
            (List.filter (has_type Expense) (by_date_order entries))
     /\ Row.balance r
        = (JS.Number_or_0 b + (Row.income r - Row.expense r))%float
     /\ Summary.currentBalance (summarize entries b)
        = (JS.Number_or_0 b + totalIncome entries - totalExpense entries)%float
     /\ (by_date_order entries = filled entries ->
         Row.income r = totalIncome entries
         /\ Row.expense r = totalExpense entries))
  /\ (exists r, last (buildSeries tz ex_entries YearP "10000" []) = Some r
                /\ Row.balance r = 14000%float
                /\ Summary.currentBalance (summarize ex_entries "10000")
                   = 14000%float).
Proof.
  split; [|eexists; split; by vm_compute].
  unfold buildSeries, bucketKey in *. cbn [groupKey] in Hyear.
  rewrite balanceChartData_unfold. cbv zeta. cbn [groupKey].
  assert (Hy' : forall e, e ∈ by_date_order entries -> parseYear (Entry.date e) = y).
  { intros e He. apply Hyear. by rewrite <- by_date_order_perm. }
  assert (Hkeys : sorted_keys (make_groups parseYear (by_date_order entries)) = [y]).
  { apply NoDup_all_eq; [apply sorted_keys_NoDup| |].
    - intros k Hk. apply elem_of_series_keys in Hk.
      change (map ?f ?l) with (f <$> l) in Hk.
      apply list_elem_of_fmap in Hk as (e & -> & He). by apply Hy'.
    - destruct (filled entries) as [|e l] eqn:Hf; [done|]. intros Hnil.
      assert (Hin : parseYear (Entry.date e)
                      ∈ sorted_keys (make_groups parseYear (by_date_order entries))).
      { apply (elem_of_series_periods tz entries YearP). rewrite Hf. simpl. by left. }
      rewrite Hnil in Hin. by apply elem_of_nil in Hin. }
  rewrite Hkeys. simpl.
  assert (Hy : y ∈ sorted_keys (make_groups parseYear (by_date_order entries))).
  { rewrite Hkeys. by left. }
  apply elem_of_sorted_keys in Hy as [g Hg]. rewrite Hg.
  eexists. split; [done|]. cbn.
  rewrite make_groups_lookup in Hg. destruct (existsb _ _); [|done].
  injection Hg as <-. cbn.
  rewrite !bucket_sum_all by done.
  repeat split.
  - unfold totalIncome. by rewrite <- H.
  - unfold totalExpense. by rewrite <- H.
Qed.

Lemma C6_year_crosscheck_witness :
  exists r,
    buildSeries 540 one_year YearP "0.1" [] = [r]
    /\ Row.period r = "2024"
    /\ Row.balance r = (JS.Number_or_0 "0.1" + (Row.income r - Row.expense r))%float
    /\ Row.income r = totalIncome one_year
    /\ Row.expense r = totalExpense one_year.
Proof.
  destruct (proj1 (C6_year_crosscheck 540 one_year "0.1" "2024"
              ltac:(intros e He; vm_compute in He;
                    apply elem_of_cons in He as [->|He]; [by vm_compute|];
                    apply elem_of_cons in He as [->|He]; [by vm_compute|];
                    by apply elem_of_nil in He)
              ltac:(by vm_compute)))
    as (r & Hs & Hp & _ & _ & Hb & _ & Ht).
  exists r. split; [done|]. split; [done|]. split; [done|].
  apply Ht. by vm_compute.
Defined.

(** The keys of the chart depend only on which keys occur. *)
Lemma sorted_keys_ext (g1 g2 : gmap string Group.t) :
  (forall k, is_Some (g1 !! k) <-> is_Some (g2 !! k)) ->
  sorted_keys g1 = sorted_keys g2.
Proof.
  intros H.
  assert (Hanti : AntiSymm eq JS.str_le) by (intros a b; apply String.leb_antisym).
  apply (StronglySorted_unique JS.str_le).
  - apply (sort_sorted String.leb); [apply String.leb_total|apply string_leb_trans].
  - apply (sort_sorted String.leb); [apply String.leb_total|apply string_leb_trans].
  - apply NoDup_Permutation; [apply sorted_keys_NoDup|apply sorted_keys_NoDup|].
    intros k. by rewrite !elem_of_sorted_keys.
Qed.

Lemma chart_rows_planBalance groups plans b keys :
  map Row.planBalance (chart_rows groups plans b keys) =
  map (plan_balance plans) (map Row.period (chart_rows groups plans b keys)).
Proof.
  revert b. induction keys as [|k keys IH]; intros b; simpl; [done|].
  destruct (groups !! k) as [g|]; [|apply IH]. simpl. by rewrite IH.
Qed.

Lemma filter_perm {A} (p : A -> bool) l1 l2 :
  l1 ≡ₚ l2 -> List.filter p l1 ≡ₚ List.filter p l2.
Proof.
  induction 1 as [|x l l' H IH|x y l|l l' l'' H1 IH1 H2 IH2]; simpl.
  - done.
  - destruct (p x); by rewrite IH.
  - destruct (p x), (p y); try done. apply Permutation_swap.
  - by rewrite IH1.
Qed.

Lemma series_periods_perm tz l1 l2 period b plans :
  l1 ≡ₚ l2 ->
  map Row.period (balanceChartData tz l1 period b plans) =
  map Row.period (balanceChartData tz l2 period b plans).
Proof.
  intros Hperm. rewrite !series_periods. apply sorted_keys_ext. intros k.
  rewrite <- !elem_of_sorted_keys, !elem_of_series_periods.
  change (map ?f ?l) with (f <$> l).
  by rewrite (filter_perm is_filled _ _ Hperm : filled l1 ≡ₚ filled l2).
Qed.

(** C10 (counterexample). Three incomes of 0.1, 0.2 and 0.3 on one day,
    listed in this order and in the reverse order: the lists are
    permutations of each other, and neither the total income nor the
    income of the series' row is the same for both. *)
Lemma C10_counterexample :
  tenths ≡ₚ rev tenths
  /\ PrimFloat.eqb (Summary.totalIncome (summarize tenths "0"))
       (Summary.totalIncome (summarize (rev tenths) "0")) = false
  /\ summarize tenths "0" <> summarize (rev tenths) "0"
  /\ (exists r1 r2,
        buildSeries 540 tenths MonthP "0" [] = [r1]
        /\ buildSeries 540 (rev tenths) MonthP "0" [] = [r2]
        /\ PrimFloat.eqb (Row.income r1) (Row.income r2) = false)
  /\ buildSeries 540 tenths MonthP "0" [] <> buildSeries 540 (rev tenths) MonthP "0" [].
Proof.
  split; [apply Permutation_rev|]. split; [by vm_compute|]. split; [|split].
  - intros H.
    apply (f_equal (fun s => PrimFloat.eqb (Summary.totalIncome s)
                               (Summary.totalIncome (summarize (rev tenths) "0")))) in H.
    vm_compute in H. discriminate.
  - eexists _, _. split; [by vm_compute|]. split; by vm_compute.
  - intros H.
    apply (f_equal (fun s => match s with
                             | [r] => PrimFloat.eqb (Row.income r) (JS.Number "0.6")
                             | _ => false
                             end)) in H.
    vm_compute in H. discriminate.
Qed.

(** C10. For two entry lists that are permutations of each other, every
    granularity, initial balance and plan list, the series have the same
    periods, hence as many rows, and the same plan balances; the series are
    the same when the dates are values of the date input and, for each
    date, the filled entries of that date come in the same order in both
    lists (the sort by date is stable, and a sum depends on the order of
    its terms); the summaries are the same when,
    for each type, the filled entries of that type come in the same order
    in both lists. *)
Theorem C10_permutation_invariant tz l1 l2 granularity b plans
    (Hperm : l1 ≡ₚ l2) :
  map Row.period (buildSeries tz l1 granularity b plans)
    = map Row.period (buildSeries tz l2 granularity b plans)
  /\ length (buildSeries tz l1 granularity b plans)
     = length (buildSeries tz l2 granularity b plans)
  /\ map Row.planBalance (buildSeries tz l1 granularity b plans)
     = map Row.planBalance (buildSeries tz l2 granularity b plans)
  /\ (Forall (fun e => is_date_value (Entry.date e) = true) (filled l1) ->
      (forall d, List.filter (fun e => String.eqb (Entry.date e) d) (filled l1)
                 = List.filter (fun e => String.eqb (Entry.date e) d) (filled l2)) ->
      buildSeries tz l1 granularity b plans = buildSeries tz l2 granularity b plans)
  /\ ((forall ty, List.filter (has_type ty) (filled l1)
                  = List.filter (has_type ty) (filled l2)) ->
      summarize l1 b = summarize l2 b).
Proof.
  unfold buildSeries.
  pose proof (series_periods_perm tz l1 l2 granularity b plans Hperm) as Hp.
  split; [done|]. split; [|split; [|split]].
  - by rewrite <- (length_map Row.period), Hp, length_map.
  - rewrite !balanceChartData_unfold. cbv zeta.
    rewrite !chart_rows_planBalance.
    rewrite !balanceChartData_unfold in Hp. cbv zeta in Hp. by rewrite Hp.
  - intros _ Hd. rewrite !balanceChartData_unfold. cbv zeta.
    assert (by_date_order l1 = by_date_order l2) as ->; [|done].
    apply (sort_by_key_ext Entry.date). exact Hd.
  - intros Ht. unfold summarize, currentBalance, totalIncome, totalExpense.
    by rewrite !Ht.
Qed.

Lemma C10_permutation_invariant_witness :
  buildSeries 540 ex_entries WeekP "10000" [ex_plan] =
    buildSeries 540 (rev ex_entries) WeekP "10000" [ex_plan]
  /\ map Row.period (buildSeries 540 tenths DayP "0" [])
     = map Row.period (buildSeries 540 (rev tenths) DayP "0" []).
Proof.
  split.
  - apply (C10_permutation_invariant 540 ex_entries (rev ex_entries) WeekP
             "10000" [ex_plan] (Permutation_rev _)); [by repeat constructor|].
    intros d.
    destruct (String.eqb_spec "2024-01-05" d) as [<-|H1]; [by vm_compute|].
    destruct (String.eqb_spec "2024-02-10" d) as [<-|H2]; [by vm_compute|].
    apply String.eqb_neq in H1, H2. cbn -[String.eqb]. by rewrite H1, H2.
  - apply (C10_permutation_invariant 540 tenths (rev tenths) DayP "0" []
             (Permutation_rev _)).
Defined.

(** * Plan balances in the chart *)


Lemma list_ascii_of_string_app s t :
  list_ascii_of_string (s +:+ t) =
  (list_ascii_of_string s ++ list_ascii_of_string t)%list.
Proof. induction s as [|c s IH]; simpl; [done|]. by rewrite IH. Qed.







Lemma find_plan_Some plans k p :
  find_plan plans k = Some p -> p ∈ plans /\ Plan.month p = k.
Proof.
  unfold find_plan. intros [H1 H2]%find_some.
  split; [by apply list_elem_of_In|by apply String.eqb_eq].
Qed.

Lemma find_plan_None plans k :
  find_plan plans k = None <-> forall p, p ∈ plans -> Plan.month p <> k.
Proof.
  unfold find_plan. split.
  - intros H p Hp Heq. apply list_elem_of_In in Hp.
    apply (find_none _ _ H) in Hp. by rewrite Heq, String.eqb_refl in Hp.
  - intros H. destruct (find _ plans) as [p|] eqn:Hf; [|done].
    apply find_some in Hf as [H1 H2]. apply list_elem_of_In in H1.
    apply String.eqb_eq in H2. by destruct (H p H1).
Qed.




(** * The plan collection *)

Lemma findIndex_spec {A} (p : A -> bool) (l : list A) :
  (JS.findIndex p l = -1 /\ forall x, x ∈ l -> p x = false)
  \/ (exists n x, JS.findIndex p l = Z.of_nat n /\ l !! n = Some x /\ p x = true).
Proof.
  induction l as [|a l IH]; simpl.
  - left. split; [done|]. by intros x ?%elem_of_nil.
  - destruct (p a) eqn:Ha.
    + right. by exists 0%nat, a.
    + destruct IH as [[-> H]|(n & x & -> & Hn & Hx)].
      * left. split; [done|]. intros x [->|Hx]%elem_of_cons; auto.
      * right. exists (S n), x. split; [|done].
        destruct (Z.ltb_spec (Z.of_nat n) 0); lia.
Qed.

Lemma imap_replace_at {A} (g : A -> A) (n : nat) (l : list A) (old : A) :
  l !! n = Some old ->
  imap (fun i pl => if Z.of_nat i =? Z.of_nat n then g pl else pl) l =
  <[n := g old]> l.
Proof.
  intros Hn. apply list_eq. intros j. rewrite list_lookup_imap.
  destruct (decide (j = n)) as [->|Hj].
  - rewrite list_lookup_insert_eq by (by eapply lookup_lt_Some).
    rewrite Hn. simpl. by rewrite Z.eqb_refl.
  - rewrite list_lookup_insert_ne by done.
    destruct (l !! j) as [x|]; [|done]. simpl.
    destruct (Z.eqb_spec (Z.of_nat j) (Z.of_nat n)); [lia|done].
Qed.

Lemma months_replace (planForm old : Plan.t) plans n :
  plans !! n = Some old -> Plan.month old = Plan.month planForm ->
  map Plan.month (<[n := set_id (Plan.id old) planForm]> plans) = map Plan.month plans
  /\ map Plan.id (<[n := set_id (Plan.id old) planForm]> plans) = map Plan.id plans.
Proof.
  intros Hn Hm. change (map ?f ?l) with (f <$> l).
  rewrite !list_fmap_insert. simpl. rewrite <- Hm.
  split; apply list_insert_id; by rewrite list_lookup_fmap, Hn.
Qed.

Lemma addPlan_blank planForm plans :
  has_values planForm = false -> addPlan planForm plans = plans.
Proof.
  unfold has_values, addPlan.
  by destruct (JS.truthy (Plan.targetBalance planForm)),
    (JS.truthy (Plan.plannedIncome planForm)),
    (JS.truthy (Plan.plannedExpense planForm)).
Qed.

Lemma addPlan_values planForm plans :
  has_values planForm = true ->
  addPlan planForm plans =
  let existing :=
    JS.findIndex (fun p => String.eqb (Plan.month p) (Plan.month planForm)) plans in
  if 0 <=? existing
  then imap (fun i pl =>
               if Z.of_nat i =? existing then set_id (Plan.id pl) planForm else pl)
         plans
  else (plans ++ [planForm])%list.
Proof.
  unfold has_values, addPlan.
  by destruct (JS.truthy (Plan.targetBalance planForm)),
    (JS.truthy (Plan.plannedIncome planForm)),
    (JS.truthy (Plan.plannedExpense planForm)).
Qed.

Lemma addPlan_new planForm plans :
  has_values planForm = true ->
  (forall p, p ∈ plans -> Plan.month p <> Plan.month planForm) ->
  addPlan planForm plans = (plans ++ [planForm])%list.
Proof.
  intros Hv Hnew. rewrite addPlan_values by done. cbv zeta.
  destruct (findIndex_spec
              (fun p => String.eqb (Plan.month p) (Plan.month planForm)) plans)
    as [[-> _]|(n & x & _ & Hn & Hx)]; [done|].
  apply String.eqb_eq in Hx. apply list_elem_of_lookup_2 in Hn.
  by destruct (Hnew x Hn).
Qed.

Lemma addPlan_existing planForm plans i old :
  has_values planForm = true ->
  NoDup (map Plan.month plans) ->
  plans !! i = Some old -> Plan.month old = Plan.month planForm ->
  addPlan planForm plans = <[i := set_id (Plan.id old) planForm]> plans.
Proof.
  intros Hv Hnd Hi Hm. rewrite addPlan_values by done. cbv zeta.
  destruct (findIndex_spec
              (fun p => String.eqb (Plan.month p) (Plan.month planForm)) plans)
    as [[_ Hnone]|(n & x & -> & Hn & Hx)].
  - apply list_elem_of_lookup_2 in Hi. apply Hnone in Hi.
    by rewrite Hm, String.eqb_refl in Hi.
  - apply String.eqb_eq in Hx.
    assert (n = i) as ->.
    { eapply NoDup_lookup; [exact Hnd| |];
        change (map ?f ?l) with (f <$> l); rewrite list_lookup_fmap.
      - by rewrite Hn.
      - rewrite Hi. simpl. congruence. }
    assert (x = old) as -> by congruence.
    destruct (Z.leb_spec 0 (Z.of_nat i)); [|lia].
    rewrite <- (imap_replace_at (fun pl => set_id (Plan.id pl) planForm) i plans old Hi).
    done.
Qed.

Lemma deletePlan_NoDup i plans :
  NoDup (map Plan.month plans) -> NoDup (map Plan.month (deletePlan i plans)).
Proof.
  unfold deletePlan. induction plans as [|p plans IH]; simpl; [done|].
  intros [Hp Hnd]%NoDup_cons. destruct (negb _); simpl; [|auto].
  apply NoDup_cons. split; [|auto]. intros Hin. apply Hp.
  change (map ?f ?l) with (f <$> l) in *.
  apply list_elem_of_fmap in Hin as (q & -> & Hq).
  apply list_elem_of_fmap. exists q. split; [done|].
  apply list_elem_of_In in Hq. apply filter_In in Hq as [Hq _].
  by apply list_elem_of_In.
Qed.

Lemma addPlan_NoDup planForm plans :
  NoDup (map Plan.month plans) -> NoDup (map Plan.month (addPlan planForm plans)).
Proof.
  intros Hnd. destruct (has_values planForm) eqn:Hv;
    [|by rewrite addPlan_blank].
  destruct (find_plan plans (Plan.month planForm)) as [old|] eqn:Hf.
  - apply find_plan_Some in Hf as [Hin Hm].
    apply list_elem_of_lookup_1 in Hin as [i Hi].
    rewrite (addPlan_existing _ _ i old) by done.
    by rewrite (proj1 (months_replace planForm old plans i Hi Hm)).
  - rewrite find_plan_None in Hf. rewrite addPlan_new by done.
    rewrite map_app. apply NoDup_app. split; [done|]. split; [|apply NoDup_singleton].
    intros m Hm [->|[]%elem_of_nil]%elem_of_cons.
    change (map ?f ?l) with (f <$> l) in Hm.
    apply list_elem_of_fmap in Hm as (q & Hq & Hin). by destruct (Hf q Hin).
Qed.

(** * The week key *)

Lemma fields_valid s y m d :
  JSDate.fields s = Some (y, m, d) ->
  1 <= m <= 12 /\ 1 <= d <= JSDate.DaysInMonth y (m - 1).
Proof.
  unfold JSDate.fields. repeat case_match; try done.
  intros [= <- <- <-]. repeat match goal with
  | H : _ && _ = true |- _ => apply andb_prop in H as [? ?]
  end. lia.
Qed.

Lemma MakeDay_jan1 y : JSDate.MakeDay y 0 1 = JSDate.DayFromYear y.
Proof.
  unfold JSDate.MakeDay. change (0 / 12) with 0. change (0 mod 12) with 0.
  replace (y + 0) with y by lia.
  change (JSDate.MonthStart (JSDate.InLeapYear y) 0) with 0. lia.
Qed.

Lemma MakeDay_in_year y m d :
  1 <= m <= 12 -> 1 <= d <= JSDate.DaysInMonth y (m - 1) ->
  JSDate.DayFromYear y <= JSDate.MakeDay y (m - 1) d < JSDate.DayFromYear (y + 1).
Proof.
  intros Hm Hd. rewrite DayFromYear_step. unfold JSDate.MakeDay.
  assert (Hl : JSDate.InLeapYear y = 0 /\ JSDate.DaysInYear y = 365
               \/ JSDate.InLeapYear y = 1 /\ JSDate.DaysInYear y = 366).
  { unfold JSDate.InLeapYear, JSDate.DaysInYear. repeat case_match; lia. }
  assert (Hcase : m = 1 \/ m = 2 \/ m = 3 \/ m = 4 \/ m = 5 \/ m = 6 \/ m = 7
                  \/ m = 8 \/ m = 9 \/ m = 10 \/ m = 11 \/ m = 12) by lia.
  destruct Hcase as [->|[->|[->|[->|[->|[->|[->|[->|[->|[->|[->| ->]]]]]]]]]]];
    match goal with
    | |- context [(?a - 1) / 12] =>
        let q := eval vm_compute in ((a - 1) / 12) in
        let r := eval vm_compute in ((a - 1) mod 12) in
        let n := eval vm_compute in (a - 1) in
        change ((a - 1) / 12) with q; change ((a - 1) mod 12) with r;
        change (a - 1) with n in Hd
    end;
    replace (y + 0) with y by lia;
    unfold JSDate.MonthStart, JSDate.DaysInMonth in *; cbv beta iota in *; lia.
Qed.

(** In a host on UTC the code computes the formula, for the years a
    four-digit field can hold from 0100 on. *)
Lemma parseWeek_utc s y m d :
  JSDate.fields s = Some (y, m, d) -> 100 <= y ->
  parseWeek 0 s = week_key_formula y m d.
Proof.
  intros Hs Hy. destruct (fields_valid _ _ _ _ Hs) as [Hm Hd].
  pose proof (MakeDay_in_year y m d Hm Hd) as Hin.
  unfold parseWeek, JSDate.parse, week_key_formula. rewrite Hs.
  set (D := JSDate.MakeDay y (m - 1) d) in *.
  assert (Hday : JSDate.Day (JSDate.LocalTime 0 (D * JSDate.msPerDay)) = D).
  { unfold JSDate.Day, JSDate.LocalTime, JSDate.msPerDay, JSDate.msPerMinute.
    Z.div_mod_to_equations. lia. }
  assert (Hyear : JSDate.getFullYear 0 (D * JSDate.msPerDay) = y).
  { unfold JSDate.getFullYear. rewrite Hday. by apply YearFromDay_unique. }
  cbv zeta. rewrite Hyear.
  assert (Hjan : JSDate.fromLocal 0 y 0 1 = JSDate.DayFromYear y * JSDate.msPerDay).
  { unfold JSDate.fromLocal, JSDate.UTC.
    destruct (Z.leb_spec y 99); [lia|]. rewrite andb_false_r, MakeDay_jan1.
    unfold JSDate.msPerMinute. lia. }
  rewrite Hjan, MakeDay_jan1.
  assert (Hwd : JSDate.getDay 0 (JSDate.DayFromYear y * JSDate.msPerDay) =
                JSDate.WeekDay (JSDate.DayFromYear y)).
  { unfold JSDate.getDay. f_equal.
    unfold JSDate.Day, JSDate.LocalTime, JSDate.msPerDay, JSDate.msPerMinute.
    Z.div_mod_to_equations. lia. }
  rewrite Hwd. do 4 f_equal.
  unfold JSDate.ceil_div, JSDate.msPerDay. f_equal.
  set (w := JSDate.WeekDay (JSDate.DayFromYear y)).
  set (J := JSDate.DayFromYear y) in *.
  Z.div_mod_to_equations. lia.
Qed.

(** East of UTC, up to a day, [dt] is later than local midnight by the
    zone's offset, and the ceiling moves to the next week whenever the whole
    days fill a week: the week number is then the floor plus one. *)
Lemma parseWeek_east tz s y m d :
  JSDate.fields s = Some (y, m, d) -> 100 <= y -> 0 < tz < 1440 ->
  parseWeek tz s =
  JS.toString y +:+ "-W"
  +:+ JS.padStart2
        (JS.toString
           ((JSDate.MakeDay y (m - 1) d - JSDate.MakeDay y 0 1
             + JSDate.WeekDay (JSDate.MakeDay y 0 1) + 1) / 7 + 1)).
Proof.
  intros Hs Hy Htz. destruct (fields_valid _ _ _ _ Hs) as [Hm Hd].
  pose proof (MakeDay_in_year y m d Hm Hd) as Hin.
  unfold parseWeek, JSDate.parse. rewrite Hs.
  set (D := JSDate.MakeDay y (m - 1) d) in *.
  assert (Hday : JSDate.Day (JSDate.LocalTime tz (D * JSDate.msPerDay)) = D).
  { unfold JSDate.Day, JSDate.LocalTime, JSDate.msPerDay, JSDate.msPerMinute.
    Z.div_mod_to_equations. lia. }
  assert (Hyear : JSDate.getFullYear tz (D * JSDate.msPerDay) = y).
  { unfold JSDate.getFullYear. rewrite Hday. by apply YearFromDay_unique. }
  cbv zeta. rewrite Hyear.
  assert (Hjan : JSDate.fromLocal tz y 0 1 =
                 JSDate.DayFromYear y * JSDate.msPerDay - tz * JSDate.msPerMinute).
  { unfold JSDate.fromLocal, JSDate.UTC.
    destruct (Z.leb_spec y 99); [lia|]. by rewrite andb_false_r, MakeDay_jan1. }
  rewrite Hjan, MakeDay_jan1.
  assert (Hwd : JSDate.getDay tz
                  (JSDate.DayFromYear y * JSDate.msPerDay - tz * JSDate.msPerMinute) =
                JSDate.WeekDay (JSDate.DayFromYear y)).
  { unfold JSDate.getDay. f_equal.
    unfold JSDate.Day, JSDate.LocalTime, JSDate.msPerDay, JSDate.msPerMinute.
    Z.div_mod_to_equations. lia. }
  rewrite Hwd. do 4 f_equal.
  unfold JSDate.ceil_div, JSDate.msPerDay, JSDate.msPerMinute.
  set (w := JSDate.WeekDay (JSDate.DayFromYear y)).
  set (J := JSDate.DayFromYear y) in *.
  Z.div_mod_to_equations. lia.
Qed.

(** C9. The week key departs from the formula of the specification when the
    host is not on UTC, because [new Date(d)] reads [d] as midnight UTC while
    [getFullYear], [new Date(year, 0, 1)] and [getDay] work in local time.
    Nine hours east, 2024-01-06 (day 5 of a year that starts on a Monday) is
    put in week 02 where the formula gives 01; five hours west, 2024-01-01 is
    keyed 2023-W53 where the formula gives 2024-W01. On UTC the code and the
    formula agree on 2024-01-01. *)
Theorem C9_week_key_zones :
  JSDate.fields "2024-01-06" = Some (2024, 1, 6)
  /\ week_key_formula 2024 1 6 = "2024-W01"
  /\ bucketKey 540 "2024-01-06" WeekP = "2024-W02"
  /\ JSDate.fields "2024-01-01" = Some (2024, 1, 1)
  /\ week_key_formula 2024 1 1 = "2024-W01"
  /\ bucketKey (-300) "2024-01-01" WeekP = "2023-W53"
  /\ bucketKey 0 "2024-01-01" WeekP = "2024-W01".
Proof. repeat split; by vm_compute. Qed.

(** C8, as stated, fails for a form with no value: submitted for the new
    month 2024-05 it appends nothing. *)
Lemma C8_counterexample :
  (forall p, p ∈ [ex_plan] -> Plan.month p <> Plan.month blank_form)
  /\ addPlan blank_form [ex_plan] <> ([ex_plan] ++ [blank_form])%list.
Proof.
  split; [|by vm_compute].
  intros p Hp. apply elem_of_cons in Hp as [->|Hp]; [by vm_compute|].
  by apply elem_of_nil in Hp.
Qed.

(** C8, amended. At most one plan per month is an invariant of the plan
    collection, kept by [addPlan] and by deletion. A form that carries at
    least one of the three values and whose month already has a plan
    replaces that plan where it stands, under the plan's own id, leaving the
    length, the months and the ids of the collection as they were; for a
    month that has no plan it is appended at the end. A form with no value
    leaves the collection unchanged. *)
Theorem C8_plan_upsert planForm plans
    (Hinv : NoDup (map Plan.month plans)) :
  NoDup (map Plan.month (addPlan planForm plans))
  /\ (forall i, NoDup (map Plan.month (deletePlan i plans)))
  /\ (has_values planForm = true ->
      (forall i old,
         plans !! i = Some old -> Plan.month old = Plan.month planForm ->
         addPlan planForm plans = <[i := set_id (Plan.id old) planForm]> plans
         /\ length (addPlan planForm plans) = length plans
         /\ map Plan.month (addPlan planForm plans) = map Plan.month plans
         /\ map Plan.id (addPlan planForm plans) = map Plan.id plans)
      /\ ((forall p, p ∈ plans -> Plan.month p <> Plan.month planForm) ->
          addPlan planForm plans = (plans ++ [planForm])%list))
  /\ (has_values planForm = false -> addPlan planForm plans = plans).
Proof.
  split; [by apply addPlan_NoDup|].
  split; [intros i; by apply deletePlan_NoDup|].
  split; [|apply addPlan_blank].
  intros Hv. split; [|by apply addPlan_new].
  intros i old Hi Hm. rewrite (addPlan_existing _ _ i old) by done.
  split; [done|]. split; [by rewrite length_insert|].
  by apply months_replace.
Qed.

Lemma C8_plan_upsert_witness :
  addPlan (Plan.mk "p7" "2024-01" "7000" "" "") [zero_target_plan; blank_form] =
    [Plan.mk "p1" "2024-01" "7000" "" ""; blank_form]
  /\ addPlan (Plan.mk "p7" "2024-03" "7000" "" "") [zero_target_plan; blank_form] =
    [zero_target_plan; blank_form; Plan.mk "p7" "2024-03" "7000" "" ""].
Proof.
  assert (Hinv : NoDup (map Plan.month [zero_target_plan; blank_form])).
  { apply NoDup_cons. split; [|apply NoDup_singleton].
    intros [H|H]%elem_of_cons; [discriminate H|by apply elem_of_nil in H]. }
  split.
  - refine (proj1 (proj1 (proj1 (proj2 (proj2
      (C8_plan_upsert (Plan.mk "p7" "2024-01" "7000" "" "")
         [zero_target_plan; blank_form] Hinv))) eq_refl)
      0%nat zero_target_plan eq_refl eq_refl)).
  - refine (proj2 (proj1 (proj2 (proj2
      (C8_plan_upsert (Plan.mk "p7" "2024-03" "7000" "" "")
         [zero_target_plan; blank_form] Hinv))) eq_refl) _).
    intros p Hp. apply elem_of_cons in Hp as [->|Hp]; [by vm_compute|].
    apply elem_of_cons in Hp as [->|Hp]; [by vm_compute|].
    by apply elem_of_nil in Hp.
Defined.



(** * Beyond the claims: the chart *)

Lemma chart_rows_row4 groups plans1 plans2 b keys :
  map row4 (chart_rows groups plans1 b keys) =
  map row4 (chart_rows groups plans2 b keys).
Proof.
  revert b. induction keys as [|k keys IH]; intros b; simpl; [done|].
  destruct (groups !! k); simpl; by rewrite IH.
Qed.

(** X2. The plans decide nothing but the plan balance: the periods, the
    balances, the incomes and the expenses of the chart are the same for
    any two plan lists. *)
Theorem X2_series_ignores_plans tz entries period b plans1 plans2 :
  map row4 (balanceChartData tz entries period b plans1) =
  map row4 (balanceChartData tz entries period b plans2).
Proof. rewrite !balanceChartData_unfold. apply chart_rows_row4. Qed.

(** X3. The plan table and the monthly chart agree on entries listed in
    the order of their dates: for every plan, the actual income and expense
    of its variance row are then the income and expense of the chart row of
    the plan's month; and, in whatever order the entries are listed, both
    are zero when the chart has no row for that month. *)
Theorem X3_variance_matches_chart tz entries b plans p :
  match List.find (fun r => String.eqb (Row.period r) (Plan.month p))
          (balanceChartData tz entries MonthP b plans) with
  | Some r =>
      by_date_order entries = filled entries ->
      VRow.actualIncome (variance_row entries p) = Row.income r
      /\ VRow.actualExpense (variance_row entries p) = Row.expense r
  | None =>
      VRow.actualIncome (variance_row entries p) = 0%float
      /\ VRow.actualExpense (variance_row entries p) = 0%float
  end.
Proof.
  unfold variance_row. cbn [VRow.actualIncome VRow.actualExpense].
  rewrite !month_sum_bucket.
  destruct (find _ _) as [r|] eqn:Hf.
  - intros Hs. apply find_some in Hf as [Hr Hm]. apply String.eqb_eq in Hm.
    apply list_elem_of_In in Hr.
    destruct (series_row _ _ _ _ _ _ Hr) as (Hi & He & _).
    cbn [groupKey] in Hi, He. by rewrite Hi, He, Hm, Hs.
  - assert (Hno : forall e, e ∈ filled entries ->
                    parseMonth (Entry.date e) <> Plan.month p).
    { intros e He Heq.
      assert (Hk : Plan.month p
                     ∈ map Row.period (balanceChartData tz entries MonthP b plans)).
      { rewrite series_periods, elem_of_series_periods.
        change (map ?f ?l) with (f <$> l). apply list_elem_of_fmap.
        exists e. by rewrite <- Heq. }
      change (map ?f ?l) with (f <$> l) in Hk.
      apply list_elem_of_fmap in Hk as (r & Hm & Hr).
      apply list_elem_of_In in Hr. apply (find_none _ _ Hf) in Hr.
      by rewrite <- Hm, String.eqb_refl in Hr. }
    by rewrite !bucket_sum_none.
Qed.

Lemma X3_variance_matches_chart_witness :
  VRow.actualIncome (variance_row mixed_amounts ex_plan) = 1250.5%float
  /\ VRow.actualExpense (variance_row mixed_amounts ex_plan) = 0.25%float.
Proof.
  pose proof (X3_variance_matches_chart 540 mixed_amounts "100" [] ex_plan) as H.
  vm_compute List.find in H.
  destruct (H ltac:(by vm_compute)) as [Hi He]. split.
  - etransitivity; [exact Hi|]. by vm_compute.
  - etransitivity; [exact He|]. by vm_compute.
Defined.

(** X4. The chart draws the plan line exactly when some filled entry falls
    in a period for which the first plan of that month has a target that is
    a number other than zero. *)
Theorem X4_plan_line_shown tz entries period b plans :
  showPlanLine (balanceChartData tz entries period b plans) = true <->
  exists e p,
    e ∈ filled entries
    /\ find_plan plans (groupKey tz period (Entry.date e)) = Some p
    /\ is_nan (JS.Number (Plan.targetBalance p)) = false
    /\ is_zero (JS.Number (Plan.targetBalance p)) = false.
Proof.
  unfold showPlanLine. rewrite existsb_exists. split.
  - intros (r & Hr & Hz). apply list_elem_of_In in Hr.
    destruct (series_row _ _ _ _ _ _ Hr) as (_ & _ & Hp).
    assert (Hk : Row.period r
                   ∈ map Row.period (balanceChartData tz entries period b plans)).
    { change (map ?f ?l) with (f <$> l). apply list_elem_of_fmap. eauto. }
    rewrite series_periods, elem_of_series_periods in Hk.
    change (map ?f ?l) with (f <$> l) in Hk.
    apply list_elem_of_fmap in Hk as (e & Hk & He).
    rewrite Hp in Hz. unfold plan_balance, JS.Number_or_null in Hz.
    destruct (find_plan plans (Row.period r)) as [p|] eqn:Hf; [|done].
    destruct (JS.falsy (JS.Number (Plan.targetBalance p))) eqn:Hn; [done|].
    apply orb_false_iff in Hn as [Hn1 Hn2].
    exists e, p. by rewrite <- Hk.
  - intros (e & p & He & Hf & Hn1 & Hn2).
    assert (Hk : groupKey tz period (Entry.date e)
                   ∈ map Row.period (balanceChartData tz entries period b plans)).
    { rewrite series_periods, elem_of_series_periods.
      change (map ?f ?l) with (f <$> l). apply list_elem_of_fmap. eauto. }
    change (map ?f ?l) with (f <$> l) in Hk.
    apply list_elem_of_fmap in Hk as (r & Hk & Hr).
    exists r. split; [by apply list_elem_of_In|].
    destruct (series_row _ _ _ _ _ _ Hr) as (_ & _ & Hp).
    rewrite Hp. unfold plan_balance, JS.Number_or_null, JS.falsy.
    rewrite <- Hk, Hf, Hn1, Hn2. cbn [orb]. by rewrite Hn1, Hn2.
Qed.

(** * Beyond the claims: the entries *)

(** The computed values read the date, the type, the description and the
    amount of an entry and nothing else. *)
Section AnalyticFields.
Context (f : Entry.t -> Entry.t).
Hypothesis f_date : forall e, Entry.date (f e) = Entry.date e.
Hypothesis f_type : forall e, Entry.type (f e) = Entry.type e.
Hypothesis f_description : forall e, Entry.description (f e) = Entry.description e.
Hypothesis f_amount : forall e, Entry.amount (f e) = Entry.amount e.

Lemma filled_map l : filled (map f l) = map f (filled l).
Proof.
  unfold filled. induction l as [|e l IH]; [done|]. simpl.
  unfold is_filled at 1. rewrite f_description, f_amount.
  fold (is_filled e). destruct (is_filled e); simpl; by rewrite IH.
Qed.

Lemma by_date_order_map l : by_date_order (map f l) = map f (by_date_order l).
Proof.
  unfold by_date_order. rewrite filled_map. apply sort_map.
  intros a b. unfold by_date. by rewrite !f_date.
Qed.

Lemma typed_sum_map ty l :
  JS.reduce_sum amount_of (List.filter (has_type ty) (map f l)) =
  JS.reduce_sum amount_of (List.filter (has_type ty) l).
Proof.
  assert (Hfil : List.filter (has_type ty) (map f l)
                 = map f (List.filter (has_type ty) l)).
  { induction l as [|e l IH]; [done|]. simpl.
    unfold has_type at 1. rewrite f_type. fold (has_type ty e).
    destruct (has_type ty e); simpl; by rewrite IH. }
  rewrite Hfil. clear Hfil. unfold JS.reduce_sum.
  generalize (List.filter (has_type ty) l). intros l'. generalize zero.
  induction l' as [|e l' IH]; intros a; [done|].
  simpl.
  replace (amount_of (f e)) with (amount_of e)
    by (unfold amount_of; by rewrite f_amount).
  apply IH.
Qed.

Lemma make_groups_map key l : make_groups key (map f l) = make_groups key l.
Proof.
  unfold make_groups. generalize (∅ : gmap string Group.t).
  induction l as [|e l IH]; intros m; [done|]. simpl. rewrite IH. f_equal.
  unfold add_to_group, has_type, amount_of. by rewrite f_date, f_type, f_amount.
Qed.

Lemma summarize_map l b : summarize (map f l) b = summarize l b.
Proof.
  unfold summarize, currentBalance, totalIncome, totalExpense.
  by rewrite filled_map, !typed_sum_map.
Qed.

Lemma balanceChartData_map tz l period b plans :
  balanceChartData tz (map f l) period b plans =
  balanceChartData tz l period b plans.
Proof.
  rewrite !balanceChartData_unfold. cbv zeta.
  by rewrite by_date_order_map, make_groups_map.
Qed.


Lemma planVsActual_map plans l : planVsActual plans (map f l) = planVsActual plans l.
Proof.
  unfold planVsActual. destruct plans as [|p0 plans]; [done|]. f_equal.
  apply map_ext. intros p. unfold variance_row. rewrite filled_map.
  assert (Hm : List.filter
                 (fun e => String.eqb (parseMonth (Entry.date e)) (Plan.month p))
                 (map f (filled l)) =
               map f (List.filter
                        (fun e => String.eqb (parseMonth (Entry.date e)) (Plan.month p))
                        (filled l))).
  { induction (filled l) as [|e l' IH]; [done|]. simpl. rewrite f_date.
    destruct (String.eqb _ _); simpl; by rewrite IH. }
  by rewrite Hm, !typed_sum_map.
Qed.
End AnalyticFields.

Lemma updateRow_ids id ed entries :
  map Entry.id (updateRow id ed entries) = map Entry.id entries.
Proof.
  unfold updateRow. rewrite map_map. apply map_ext. intros r.
  destruct (String.eqb (Entry.id r) id); [|done]. by destruct ed.
Qed.

(** X5. A memo, a category or a receipt never changes a computed value:
    after [updateRow] on the memo or on the category, and after a receipt
    is attached to a row, the summary, the chart in every granularity and
    the plan table are what they were; the receipt changes nothing in the
    CSV export either. *)
Theorem X5_annotations_inert tz id v data name formData entries period b plans :
  Forall (fun entries' =>
            summarize entries' b = summarize entries b
            /\ balanceChartData tz entries' period b plans =
               balanceChartData tz entries period b plans
            /\ planVsActual plans entries' = planVsActual plans entries)
    [updateRow id (SetMemo v) entries;
     updateRow id (SetCategory v) entries;
     snd (handleReceiptUpload (Some (data, name)) TTable id (formData, entries));
     snd (handleReceiptUpload (Some (data, name)) TForm id (formData, entries));
     snd (handleReceiptUpload None TTable id (formData, entries))]
  /\ exportCSV
       (snd (handleReceiptUpload (Some (data, name)) TTable id (formData, entries)))
     = exportCSV entries.
Proof.
  split.
  - assert (H : forall f : Entry.t -> Entry.t,
               (forall e, Entry.date (f e) = Entry.date e) ->
               (forall e, Entry.type (f e) = Entry.type e) ->
               (forall e, Entry.description (f e) = Entry.description e) ->
               (forall e, Entry.amount (f e) = Entry.amount e) ->
               summarize (map f entries) b = summarize entries b
               /\ balanceChartData tz (map f entries) period b plans =
                  balanceChartData tz entries period b plans
               /\ planVsActual plans (map f entries) = planVsActual plans entries).
    { intros f H1 H2 H3 H4. split; [by apply summarize_map|].
      split; [by apply balanceChartData_map|by apply planVsActual_map]. }
    repeat apply Forall_cons_2; [| | |done|done|apply Forall_nil_2]; simpl;
      unfold updateRow; apply H; intros e;
      by destruct (String.eqb (Entry.id e) id).
  - simpl. unfold exportCSV.
    rewrite filled_map by (intros e; by destruct (String.eqb (Entry.id e) id)).
    rewrite map_map.
    rewrite (map_ext (fun x => csv_row (if String.eqb (Entry.id x) id
                                        then set_receipt data name x else x)) csv_row)
      by (intros e; by destruct (String.eqb (Entry.id e) id)).
    by destruct (filled entries).
Qed.



(** X7. [addFromForm] takes the form only when both its amount and its
    description are filled in. A form it takes becomes the last entry, under
    the new id, counts as filled, and its amount is the last one added to
    the total of its type, so that the current balance is the initial
    balance plus the new total income, minus the new total expense; the
    form is reset to a blank one. A form it refuses changes neither the
    entries nor the form. *)
Theorem X7_addFromForm id id' today formData entries b :
  let accepted :=
    JS.truthy (Entry.amount formData) && JS.truthy (Entry.description formData) in
  let st := addFromForm id id' today formData entries in
  (if accepted
   then fst st = (entries ++ [set_entry_id id formData])%list
        /\ snd st = emptyEntry id' today
        /\ filled (fst st) = (filled entries ++ [set_entry_id id formData])%list
   else st = (entries, formData))
  /\ totalIncome (fst st) =
     (if accepted && has_type Income formData
      then (totalIncome entries + amount_of formData)%float
      else totalIncome entries)
  /\ totalExpense (fst st) =
     (if accepted && has_type Expense formData
      then (totalExpense entries + amount_of formData)%float
      else totalExpense entries)
  /\ currentBalance (fst st) b =
     (JS.Number_or_0 b + totalIncome (fst st) - totalExpense (fst st))%float.
Proof.
  cbv zeta. unfold addFromForm.
  destruct (JS.truthy (Entry.amount formData)) eqn:Ha,
    (JS.truthy (Entry.description formData)) eqn:Hd; simpl; try done.
  assert (Hf : is_filled (set_entry_id id formData) = true)
    by (unfold is_filled; simpl; by rewrite Hd).
  split; [|split; [|split; [|done]]].
  - repeat split. rewrite filled_app. f_equal. unfold filled. simpl. by rewrite Hf.
  - unfold totalIncome. by rewrite total_snoc, Hf.
  - unfold totalExpense. by rewrite total_snoc, Hf.
Qed.

(** X8. A row added to the table is a draft: it lengthens the entries by
    one and changes neither the summary, nor the chart, nor the plan table,
    nor the CSV export, nor the number of filled entries. *)
Theorem X8_addTableRow_is_draft tz id today entries period b plans :
  let entries' := addTableRow id today entries in
  length entries' = S (length entries)
  /\ filled entries' = filled entries
  /\ summarize entries' b = summarize entries b
  /\ balanceChartData tz entries' period b plans =
     balanceChartData tz entries period b plans
  /\ planVsActual plans entries' = planVsActual plans entries
  /\ exportCSV entries' = exportCSV entries.
Proof.
  cbv zeta. unfold addTableRow.
  assert (Hf : filled (entries ++ [emptyEntry id today]) = filled entries).
  { rewrite filled_app. unfold filled at 2. simpl. apply app_nil_r. }
  split; [rewrite length_app; simpl; lia|]. split; [done|].
  split; [by rewrite <- summarize_filled, Hf, summarize_filled|].
  split; [by rewrite <- balanceChartData_filled, Hf, balanceChartData_filled|].
  split; [by rewrite <- planVsActual_filled, Hf, planVsActual_filled|].
  unfold exportCSV. by rewrite Hf.
Qed.

Lemma deleteRow_absent id entries :
  id ∉ map Entry.id entries -> deleteRow id entries = entries.
Proof.
  unfold deleteRow. induction entries as [|e l IH]; [done|]. simpl.
  intros Hn. destruct (String.eqb_spec (Entry.id e) id) as [<-|Hne]; simpl.
  - destruct Hn. by left.
  - rewrite IH; [done|]. intros H. apply Hn. by right.
Qed.

Lemma deleteRow_at entries i e :
  NoDup (map Entry.id entries) -> entries !! i = Some e ->
  deleteRow (Entry.id e) entries = delete i entries.
Proof.
  revert i. induction entries as [|a l IH]; intros i; [done|].
  simpl. intros [Ha Hnd]%NoDup_cons Hi. destruct i as [|i]; simpl in *.
  - injection Hi as ->. rewrite String.eqb_refl. simpl.
    by apply (deleteRow_absent (Entry.id e) l).
  - destruct (String.eqb_spec (Entry.id a) (Entry.id e)) as [Heq|Hne]; simpl.
    + destruct Ha. rewrite Heq. change (map ?f ?l) with (f <$> l).
      apply list_elem_of_fmap. exists e. split; [done|].
      by eapply list_elem_of_lookup_2.
    + f_equal. by apply IH.
Qed.

(** X9. With distinct ids, [deleteRow] of the id of the entry at index [i]
    removes that entry and no other: the rest keep their order and the
    list is one entry shorter; an id that no entry has deletes nothing. *)
Theorem X9_deleteRow_exact entries i e
    (Hids : NoDup (map Entry.id entries))
    (Hi : entries !! i = Some e) :
  deleteRow (Entry.id e) entries = (take i entries ++ drop (S i) entries)%list
  /\ length (deleteRow (Entry.id e) entries) = pred (length entries)
  /\ (forall id, id ∉ map Entry.id entries -> deleteRow id entries = entries).
Proof.
  rewrite (deleteRow_at entries i e Hids Hi), delete_take_drop.
  split; [done|]. split; [|intros id; apply deleteRow_absent].
  pose proof (lookup_lt_Some _ _ _ Hi).
  rewrite length_app, length_take, length_drop. lia.
Qed.

Lemma X9_deleteRow_exact_witness :
  deleteRow "e1"
    [set_entry_id "e1" (entry "2024-01-05" Expense "1000" "lunch");
     set_entry_id "e2" (entry "2024-02-10" Income "5000" "salary")] =
  [set_entry_id "e2" (entry "2024-02-10" Income "5000" "salary")].
Proof.
  refine (proj1 (X9_deleteRow_exact
    [set_entry_id "e1" (entry "2024-01-05" Expense "1000" "lunch");
     set_entry_id "e2" (entry "2024-02-10" Income "5000" "salary")]
    0%nat (set_entry_id "e1" (entry "2024-01-05" Expense "1000" "lunch"))
    _ eq_refl)).
  apply NoDup_cons. split; [|apply NoDup_singleton].
  intros [H|H]%elem_of_cons; [discriminate H|by apply elem_of_nil in H].
Defined.

(** X10. Adding and then deleting is a round trip: when the new id is not
    the id of an entry, deleting it right after [addFromForm] or
    [addTableRow] gives back the entries as they were. *)
Theorem X10_add_delete_round_trip id id' today formData entries
    (Hfresh : id ∉ map Entry.id entries) :
  deleteRow id (fst (addFromForm id id' today formData entries)) = entries
  /\ deleteRow id (addTableRow id today entries) = entries.
Proof.
  assert (Happ : forall e, Entry.id e = id -> deleteRow id (entries ++ [e]) = entries).
  { intros e He. unfold deleteRow. rewrite List.filter_app. simpl.
    rewrite He, String.eqb_refl. simpl. rewrite app_nil_r.
    by apply deleteRow_absent. }
  split.
  - unfold addFromForm. destruct (_ || _); simpl.
    + by apply deleteRow_absent.
    + by apply Happ.
  - by apply Happ.
Qed.

Lemma X10_add_delete_round_trip_witness :
  deleteRow "n1" (fst (addFromForm "n1" "n2" "2024-03-01"
                         (entry "2024-03-01" Income "10" "gift") ex_entries))
    = ex_entries
  /\ deleteRow "n1" (addTableRow "n1" "2024-03-01" ex_entries) = ex_entries.
Proof.
  apply (X10_add_delete_round_trip "n1" "n2" "2024-03-01"
           (entry "2024-03-01" Income "10" "gift") ex_entries).
  intros [H|[H|H]%elem_of_cons]%elem_of_cons;
    [discriminate H|discriminate H|by apply elem_of_nil in H].
Defined.

(** X11. Distinct ids are an invariant of the entries: [addFromForm] and
    [addTableRow] keep it when the new id is fresh, and [deleteRow],
    [updateRow] and a receipt upload keep it always. *)
Theorem X11_entry_ids_distinct id id' today ed file target formData entries
    (Hids : NoDup (map Entry.id entries)) :
  (id ∉ map Entry.id entries ->
   NoDup (map Entry.id (fst (addFromForm id id' today formData entries)))
   /\ NoDup (map Entry.id (addTableRow id today entries)))
  /\ NoDup (map Entry.id (deleteRow id entries))
  /\ NoDup (map Entry.id (updateRow id ed entries))
  /\ NoDup (map Entry.id
              (snd (handleReceiptUpload file target id (formData, entries)))).
Proof.
  assert (Happ : forall e, Entry.id e = id -> id ∉ map Entry.id entries ->
                   NoDup (map Entry.id (entries ++ [e]))).
  { intros e He Hf. rewrite map_app. simpl. rewrite He.
    apply NoDup_app. split; [done|]. split; [|apply NoDup_singleton].
    intros x Hx [->|[]%elem_of_nil]%elem_of_cons. done. }
  split; [|split; [|split]].
  - intros Hf. split; [|by apply Happ].
    unfold addFromForm. destruct (_ || _); simpl; [done|by apply Happ].
  - unfold deleteRow. clear Happ.
    induction entries as [|e l IH]; simpl; [done|].
    apply NoDup_cons in Hids as [He Hnd]. destruct (negb _); simpl; [|auto].
    apply NoDup_cons. split; [|auto]. intros Hin. apply He.
    change (map ?f ?l) with (f <$> l) in *.
    apply list_elem_of_fmap in Hin as (q & -> & Hq).
    apply list_elem_of_fmap. exists q. split; [done|].
    apply list_elem_of_In in Hq. apply filter_In in Hq as [Hq _].
    by apply list_elem_of_In.
  - by rewrite updateRow_ids.
  - destruct file as [[data name]|]; [|done]. destruct target; [done|]. simpl.
    rewrite map_map.
    rewrite (map_ext _ Entry.id); [done|].
    intros e. by destruct (String.eqb (Entry.id e) id).
Qed.

Lemma X11_entry_ids_distinct_witness :
  NoDup (map Entry.id (addTableRow "n1" "2024-03-01" [emptyEntry "n0" "2024-03-01"])).
Proof.
  refine (proj2 (proj1 (X11_entry_ids_distinct "n1" "n2" "2024-03-01"
    (SetMemo "m") None TForm (emptyEntry "n0" "2024-03-01")
    [emptyEntry "n0" "2024-03-01"] _) _)).
  - apply NoDup_singleton.
  - intros [H|H]%elem_of_cons; [discriminate H|by apply elem_of_nil in H].
Defined.
(** * Beyond the claims: the plans *)

Lemma findIndex_ge {A} (p : A -> bool) l : -1 <= JS.findIndex p l.
Proof.
  induction l as [|a l IH]; simpl; [lia|].
  destruct (p a); [lia|]. destruct (Z.ltb_spec (JS.findIndex p l) 0); lia.
Qed.

Lemma imap_none_at {A} (g : A -> A) (l : list A) (k : Z) :
  k < 0 ->
  imap (fun i pl => if Z.of_nat i =? k then g pl else pl) l = l.
Proof.
  intros Hk. apply list_eq. intros j. rewrite list_lookup_imap.
  destruct (l !! j) as [x|]; [|done]. simpl.
  destruct (Z.eqb_spec (Z.of_nat j) k); [lia|done].
Qed.

Lemma imap_shift {A} (g : A -> A) (l : list A) (k : Z) :
  imap ((fun i pl => if Z.of_nat i =? k then g pl else pl) ∘ S) l =
  imap (fun i pl => if Z.of_nat i =? k - 1 then g pl else pl) l.
Proof.
  apply imap_ext. intros i x _. unfold compose.
  destruct (Z.eqb_spec (Z.of_nat (S i)) k), (Z.eqb_spec (Z.of_nat i) (k - 1));
    try done; lia.
Qed.

Lemma addPlan_upsert_first planForm plans :
  has_values planForm = true -> addPlan planForm plans = upsert_first planForm plans.
Proof.
  intros Hv. rewrite addPlan_values by done. cbv zeta.
  induction plans as [|p l IH]; [done|].
  cbn [JS.findIndex upsert_first].
  destruct (String.eqb (Plan.month p) (Plan.month planForm)) eqn:Hm.
  - change (0 <=? 0) with true. cbv iota. rewrite imap_cons, imap_shift.
    rewrite (imap_none_at _ l (0 - 1)) by lia. done.
  - set (k := JS.findIndex
                (fun q => String.eqb (Plan.month q) (Plan.month planForm)) l) in *.
    pose proof (findIndex_ge
                  (fun q => String.eqb (Plan.month q) (Plan.month planForm)) l) as Hge.
    fold k in Hge.
    destruct (Z.ltb_spec k 0) as [Hlt|Hnn].
    + change (0 <=? -1) with false. cbv iota.
      destruct (Z.leb_spec 0 k); [lia|]. by rewrite <- IH.
    + destruct (Z.leb_spec 0 (k + 1)); [|lia].
      destruct (Z.leb_spec 0 k); [|lia].
      rewrite imap_cons, imap_shift.
      destruct (Z.eqb_spec (Z.of_nat 0) (k + 1)); [lia|].
      f_equal. rewrite <- IH. by replace (k + 1 - 1) with k by lia.
Qed.

Lemma find_plan_upsert_same planForm plans :
  exists p, find_plan (upsert_first planForm plans) (Plan.month planForm) = Some p
            /\ Plan.month p = Plan.month planForm
            /\ plan_values p = plan_values planForm.
Proof.
  unfold find_plan. induction plans as [|q l IH]; simpl.
  - rewrite String.eqb_refl. eauto.
  - destruct (String.eqb (Plan.month q) (Plan.month planForm)) eqn:Hm; simpl.
    + rewrite String.eqb_refl. eexists. split; [done|]. by destruct planForm.
    + by rewrite Hm.
Qed.

Lemma find_plan_upsert_other planForm plans k :
  k <> Plan.month planForm ->
  find_plan (upsert_first planForm plans) k = find_plan plans k.
Proof.
  intros Hk. unfold find_plan. induction plans as [|q l IH]; simpl.
  - destruct (String.eqb_spec (Plan.month planForm) k); [congruence|done].
  - destruct (String.eqb_spec (Plan.month q) (Plan.month planForm)) as [Hm|Hm]; simpl.
    + destruct (String.eqb_spec (Plan.month planForm) k); [congruence|].
      destruct (String.eqb_spec (Plan.month q) k); [congruence|done].
    + by rewrite IH.
Qed.

(** X12. After a form with a value is submitted, looking up the form's
    month finds a plan with the form's month and the form's three values, so
    the chart's plan balance for that month is the form's target read as a
    number (null for zero or no number); the plan found for any other month
    is the one found before. *)
Theorem X12_addPlan_lookup planForm plans
    (Hv : has_values planForm = true) :
  (exists p, find_plan (addPlan planForm plans) (Plan.month planForm) = Some p
             /\ Plan.month p = Plan.month planForm
             /\ plan_values p = plan_values planForm)
  /\ plan_balance (addPlan planForm plans) (Plan.month planForm) =
     JS.Number_or_null (Plan.targetBalance planForm)
  /\ (forall k, k <> Plan.month planForm ->
        find_plan (addPlan planForm plans) k = find_plan plans k
        /\ plan_balance (addPlan planForm plans) k = plan_balance plans k).
Proof.
  rewrite addPlan_upsert_first by done.
  destruct (find_plan_upsert_same planForm plans) as (p & Hp & Hm & Hvals).
  split; [eauto|]. split.
  - unfold plan_balance. rewrite Hp. by injection Hvals as -> _ _.
  - intros k Hk. unfold plan_balance. by rewrite find_plan_upsert_other.
Qed.

Lemma X12_addPlan_lookup_witness :
  plan_balance (addPlan (Plan.mk "p7" "2024-01" "7000" "" "") [zero_target_plan])
    "2024-01" = Some 7000%float.
Proof.
  exact (proj1 (proj2 (X12_addPlan_lookup (Plan.mk "p7" "2024-01" "7000" "" "")
                         [zero_target_plan] eq_refl))).
Defined.

Lemma upsert_first_idemp planForm plans :
  upsert_first planForm (upsert_first planForm plans) = upsert_first planForm plans.
Proof.
  induction plans as [|q l IH]; simpl.
  - rewrite String.eqb_refl. by destruct planForm.
  - destruct (String.eqb (Plan.month q) (Plan.month planForm)) eqn:Hm; simpl.
    + by rewrite String.eqb_refl.
    + by rewrite Hm, IH.
Qed.

(** X13. Submitting the same form twice is submitting it once, and the
    blank form that [addPlan] leaves behind changes nothing when it is
    submitted in turn. *)
Theorem X13_addPlan_idempotent planForm plans id month :
  addPlan planForm (addPlan planForm plans) = addPlan planForm plans
  /\ addPlan (emptyPlan id month) (addPlan planForm plans) = addPlan planForm plans.
Proof.
  split; [|by apply addPlan_blank].
  destruct (has_values planForm) eqn:Hv.
  - rewrite !addPlan_upsert_first by done. apply upsert_first_idemp.
  - by rewrite !addPlan_blank.
Qed.

Lemma deletePlan_absent i plans :
  i ∉ map Plan.id plans -> deletePlan i plans = plans.
Proof.
  unfold deletePlan. induction plans as [|p l IH]; [done|]. simpl.
  intros Hn. destruct (String.eqb_spec (Plan.id p) i) as [<-|Hne]; simpl.
  - destruct Hn. by left.
  - rewrite IH; [done|]. intros H. apply Hn. by right.
Qed.

Lemma deletePlan_at plans i p :
  NoDup (map Plan.id plans) -> plans !! i = Some p ->
  deletePlan (Plan.id p) plans = (take i plans ++ drop (S i) plans)%list.
Proof.
  revert i. induction plans as [|a l IH]; intros i; [done|].
  simpl. intros [Ha Hnd]%NoDup_cons Hi. destruct i as [|i]; simpl in *.
  - injection Hi as ->. rewrite String.eqb_refl. simpl. rewrite drop_0.
    by apply (deletePlan_absent (Plan.id p) l).
  - destruct (String.eqb_spec (Plan.id a) (Plan.id p)) as [Heq|Hne]; simpl.
    + destruct Ha. rewrite Heq. change (map ?f ?l) with (f <$> l).
      apply list_elem_of_fmap. exists p. split; [done|].
      by eapply list_elem_of_lookup_2.
    + f_equal. by apply IH.
Qed.

Lemma planVsActual_length plans entries :
  length (planVsActual plans entries) = length plans.
Proof.
  unfold planVsActual. destruct plans as [|p l]; [done|].
  by rewrite sort_length, length_map.
Qed.

Lemma find_plan_app l1 l2 k :
  find_plan (l1 ++ l2) k =
  match find_plan l1 k with
  | Some p => Some p
  | None => find_plan l2 k
  end.
Proof.
  unfold find_plan. induction l1 as [|a l1 IH]; [done|]. simpl.
  by destruct (String.eqb (Plan.month a) k).
Qed.

(** X14. With distinct ids and one plan per month, deleting the plan at
    index [i] by its id removes that plan and no other: its month has no plan
    afterwards, every other month finds the plan it found before, and the
    plan table has one row less. *)
Theorem X14_deletePlan_exact plans entries i p
    (Hids : NoDup (map Plan.id plans))
    (Hmonths : NoDup (map Plan.month plans))
    (Hi : plans !! i = Some p) :
  deletePlan (Plan.id p) plans = (take i plans ++ drop (S i) plans)%list
  /\ find_plan (deletePlan (Plan.id p) plans) (Plan.month p) = None
  /\ (forall k, k <> Plan.month p ->
        find_plan (deletePlan (Plan.id p) plans) k = find_plan plans k)
  /\ length (planVsActual (deletePlan (Plan.id p) plans) entries) =
     pred (length plans).
Proof.
  rewrite (deletePlan_at plans i p Hids Hi).
  pose proof (take_drop_middle plans i p Hi) as Hsplit.
  split; [done|]. split; [|split].
  - apply find_plan_None. intros q Hq Hm.
    rewrite <- Hsplit, map_app in Hmonths. simpl in Hmonths.
    apply NoDup_app in Hmonths as (_ & Hdisj & [Hp _]%NoDup_cons).
    apply elem_of_app in Hq as [Hq|Hq].
    + apply (Hdisj (Plan.month q)).
      * change (map ?f ?l) with (f <$> l). apply list_elem_of_fmap. eauto.
      * rewrite Hm. by left.
    + apply Hp. rewrite <- Hm. change (map ?f ?l) with (f <$> l).
      apply list_elem_of_fmap. eauto.
  - intros k Hk. rewrite <- Hsplit at 3. rewrite !find_plan_app.
    destruct (find_plan (take i plans) k); [done|].
    unfold find_plan at 2. simpl.
    destruct (String.eqb_spec (Plan.month p) k); [congruence|done].
  - rewrite planVsActual_length.
    pose proof (lookup_lt_Some _ _ _ Hi).
    rewrite length_app, length_take, length_drop. lia.
Qed.

Lemma X14_deletePlan_exact_witness :
  deletePlan "p1" [zero_target_plan; blank_form] = [blank_form]
  /\ find_plan (deletePlan "p1" [zero_target_plan; blank_form]) "2024-01" = None.
Proof.
  assert (Hids : NoDup (map Plan.id [zero_target_plan; blank_form])).
  { apply NoDup_cons. split; [|apply NoDup_singleton].
    intros [H|H]%elem_of_cons; [discriminate H|by apply elem_of_nil in H]. }
  assert (Hmonths : NoDup (map Plan.month [zero_target_plan; blank_form])).
  { apply NoDup_cons. split; [|apply NoDup_singleton].
    intros [H|H]%elem_of_cons; [discriminate H|by apply elem_of_nil in H]. }
  pose proof (X14_deletePlan_exact [zero_target_plan; blank_form] ex_entries
                0%nat zero_target_plan Hids Hmonths eq_refl) as (H1 & H2 & _).
  split; [exact H1|exact H2].
Defined.

Lemma upsert_first_ids planForm plans :
  map Plan.id (upsert_first planForm plans) = map Plan.id plans
  \/ map Plan.id (upsert_first planForm plans) =
     (map Plan.id plans ++ [Plan.id planForm])%list.
Proof.
  induction plans as [|p l IH]; simpl; [by right|].
  destruct (String.eqb (Plan.month p) (Plan.month planForm)); simpl; [by left|].
  destruct IH as [->| ->]; [by left|by right].
Qed.

(** X15. Distinct ids are an invariant of the plans: [addPlan] keeps it
    when the id of the form is not the id of a plan (a replaced plan keeps
    its own id, an appended one brings the form's), and deletion keeps it
    always. *)
Theorem X15_plan_ids_distinct planForm i plans
    (Hids : NoDup (map Plan.id plans)) :
  (Plan.id planForm ∉ map Plan.id plans ->
   NoDup (map Plan.id (addPlan planForm plans)))
  /\ NoDup (map Plan.id (deletePlan i plans)).
Proof.
  split.
  - intros Hfresh. destruct (has_values planForm) eqn:Hv;
      [|by rewrite addPlan_blank].
    rewrite addPlan_upsert_first by done.
    destruct (upsert_first_ids planForm plans) as [->| ->]; [done|].
    apply NoDup_app. split; [done|]. split; [|apply NoDup_singleton].
    intros x Hx [->|[]%elem_of_nil]%elem_of_cons. done.
  - unfold deletePlan. induction plans as [|p l IH]; simpl; [done|].
    apply NoDup_cons in Hids as [Hp Hnd]. destruct (negb _); simpl; [|auto].
    apply NoDup_cons. split; [|auto]. intros Hin. apply Hp.
    change (map ?f ?l) with (f <$> l) in *.
    apply list_elem_of_fmap in Hin as (q & -> & Hq).
    apply list_elem_of_fmap. exists q. split; [done|].
    apply list_elem_of_In in Hq. apply filter_In in Hq as [Hq _].
    by apply list_elem_of_In.
Qed.

Lemma X15_plan_ids_distinct_witness :
  NoDup (map Plan.id
           (addPlan (Plan.mk "p7" "2024-02" "7000" "" "") [zero_target_plan]))
  /\ NoDup (map Plan.id
              (addPlan (Plan.mk "p8" "2024-01" "7000" "" "") [zero_target_plan]))
  /\ addPlan (Plan.mk "p7" "2024-02" "7000" "" "") [zero_target_plan]
     = [zero_target_plan; Plan.mk "p7" "2024-02" "7000" "" ""]
  /\ addPlan (Plan.mk "p8" "2024-01" "7000" "" "") [zero_target_plan]
     = [Plan.mk "p1" "2024-01" "7000" "" ""].
Proof.
  assert (Hids : NoDup (map Plan.id [zero_target_plan])) by apply NoDup_singleton.
  split; [|split; [|split; by vm_compute]].
  - refine (proj1 (X15_plan_ids_distinct (Plan.mk "p7" "2024-02" "7000" "" "")
                     "p1" [zero_target_plan] Hids) _).
    intros [H|H]%elem_of_cons; [discriminate H|by apply elem_of_nil in H].
  - refine (proj1 (X15_plan_ids_distinct (Plan.mk "p8" "2024-01" "7000" "" "")
                     "p1" [zero_target_plan] Hids) _).
    intros [H|H]%elem_of_cons; [discriminate H|by apply elem_of_nil in H].
Defined.

Lemma sort_by_key_strict {A} (key : A -> string) (l : list A) :
  NoDup (map key l) ->
  StronglySorted JS.str_lt
    (map key (JS.sort (fun a b => String.leb (key a) (key b)) l)).
Proof.
  intros Hnd. apply StronglySorted_le_lt.
  - change (map ?f ?l) with (f <$> l) in *. by rewrite sort_perm.
  - change (map ?f ?l) with (f <$> l).
    apply (StronglySorted_fmap key
             (fun a b => String.leb (key a) (key b) = true) JS.str_le); [done|].
    apply (sort_sorted (fun a b => String.leb (key a) (key b))).
    + intros a b. apply String.leb_total.
    + intros a b c. apply string_leb_trans.
Qed.

(** X16. When the plans' months have the form YYYY-MM and no two plans
    share a month, the rows of the plan table and of the variance table
    come in strictly ascending order of month, so the month is a key that
    tells the variance rows apart; the plan table lists every plan once. *)
Theorem X16_tables_strictly_sorted plans entries
    (Hform : Forall (fun p => is_month_form (Plan.month p) = true) plans)
    (Hmonths : NoDup (map Plan.month plans)) :
  StronglySorted JS.str_lt (map VRow.month (planVsActual plans entries))
  /\ StronglySorted JS.str_lt (map Plan.month (planTable plans))
  /\ planTable plans ≡ₚ plans.
Proof.
  split; [|split; [by apply (sort_by_key_strict Plan.month)|apply sort_perm]].
  unfold planVsActual. destruct plans as [|p l]; [constructor|].
  apply (sort_by_key_strict VRow.month). by rewrite map_map.
Qed.

Lemma X16_tables_strictly_sorted_witness :
  StronglySorted JS.str_lt
    (map VRow.month (planVsActual [blank_form; zero_target_plan] ex_entries)).
Proof.
  refine (proj1 (X16_tables_strictly_sorted [blank_form; zero_target_plan]
                   ex_entries _ _)).
  - by repeat constructor.
  - apply NoDup_cons. split; [|apply NoDup_singleton].
    intros [H|H]%elem_of_cons; [discriminate H|by apply elem_of_nil in H].
Defined.

(** * Beyond the claims: the export and the display *)

Lemma count_LF_app s t : count_LF (s +:+ t) = (count_LF s + count_LF t)%nat.
Proof.
  unfold count_LF. by rewrite list_ascii_of_string_app, List.filter_app, length_app.
Qed.

Lemma count_LF_row e : line_free e = true -> count_LF (csv_row e) = 0%nat.
Proof.
  unfold line_free. rewrite !andb_true_iff, !Nat.eqb_eq.
  intros [[[[H1 H2] H3] H4] H5]. unfold csv_row.
  rewrite !count_LF_app, H1, H2, H3, H4, H5. by destruct (Entry.type e).
Qed.

Lemma count_LF_join rows :
  Forall (fun r => count_LF r = 0%nat) rows ->
  count_LF (join_lines rows) = pred (length rows).
Proof.
  induction 1 as [|r rows Hr Hrows IH]; [done|].
  destruct rows as [|r' rows]; [done|].
  change (join_lines (r :: r' :: rows))
    with (r +:+ String LF (join_lines (r' :: rows))).
  rewrite count_LF_app, Hr.
  change (String LF (join_lines (r' :: rows)))
    with (String LF EmptyString +:+ join_lines (r' :: rows)).
  by rewrite count_LF_app, IH.
Qed.

(** X17. The export writes nothing exactly when no entry is filled;
    otherwise the text starts with the byte-order mark and the header line,
    and it is the text that the filled entries alone would give: drafts are
    never exported. *)
Theorem X17_exportCSV_filled_only entries :
  (exportCSV entries = None <-> filled entries = [])
  /\ exportCSV (filled entries) = exportCSV entries
  /\ match exportCSV entries with
     | Some text => String.prefix (BOM +:+ csv_header) text = true
     | None => True
     end.
Proof.
  unfold exportCSV. rewrite filled_idemp. split; [|split; [done|]].
  - by destruct (filled entries).
  - destruct (filled entries) as [|e l]; [done|].
    generalize (join_lines (map csv_row (e :: l))). intros t.
    assert (H : forall a b, String.prefix a (a +:+ b) = true).
    { clear. induction a as [|c a IH]; intros b; simpl; [by destruct b|].
      destruct (ascii_dec c c); [apply IH|done]. }
    assert (Hassoc : forall a b c, a +:+ (b +:+ c) = (a +:+ b) +:+ c).
    { clear. induction a as [|x a IH]; intros b c; [done|].
      change (String x (a +:+ (b +:+ c)) = String x ((a +:+ b) +:+ c)).
      by rewrite IH. }
    rewrite Hassoc. apply H.
Qed.

(** X18. One line per entry: when no exported field of a filled entry
    holds a line feed, the text has as many line feeds as there are filled
    entries (the header's, and one between consecutive rows). *)
Theorem X18_exportCSV_lines entries text
    (Hfree : forall e, e ∈ filled entries -> line_free e = true)
    (Htext : exportCSV entries = Some text) :
  count_LF text = length (filled entries).
Proof.
  unfold exportCSV in Htext.
  destruct (filled entries) as [|e l] eqn:Hf; [done|].
  assert (text = BOM +:+ csv_header +:+ join_lines (map csv_row (e :: l))) as ->
    by congruence.
  rewrite !count_LF_app, count_LF_join.
  - rewrite length_map. by vm_compute.
  - change (map ?f ?l) with (f <$> l). apply Forall_fmap, Forall_forall.
    intros x Hx. by apply count_LF_row, Hfree.
Qed.

Lemma X18_exportCSV_lines_witness :
  exists text, exportCSV ex_entries = Some text /\ count_LF text = 2%nat.
Proof.
  eexists. split; [reflexivity|].
  refine (X18_exportCSV_lines ex_entries _ _ eq_refl).
  intros e He. vm_compute in He.
  apply elem_of_cons in He as [->|He]; [by vm_compute|].
  apply elem_of_cons in He as [->|He]; [by vm_compute|].
  by apply elem_of_nil in He.
Defined.

(** X19. [formatYen] shows the dash for the empty string and for a string
    that is not a number, and for nothing else; every other string, zero
    included, is shown as the yen sign and the host's rendering of the
    absolute value, after a minus sign when the number is negative:
    ["1.5"] as the yen sign and 1.5, ["-20"] as the minus sign, the yen
    sign and 20. *)
Theorem X19_formatYen_dash toLocaleString v :
  (formatYen toLocaleString v = "—" <-> v = "" \/ is_nan (JS.Number v) = true)
  /\ (v <> "" -> is_nan (JS.Number v) = false ->
      formatYen toLocaleString v =
      (if (JS.Number v <? 0)%float then "-" else "") +:+ "¥"
      +:+ toLocaleString (abs (JS.Number v)))
  /\ formatYen toLocaleString "1.5" = "¥" +:+ toLocaleString 1.5%float
  /\ formatYen toLocaleString "-20" = "-¥" +:+ toLocaleString 20%float
  /\ formatYen toLocaleString "0" = "¥" +:+ toLocaleString 0%float
  /\ formatYen toLocaleString "1,5" = "—".
Proof.
  split; [|split; [|by vm_compute]].
  - unfold formatYen. destruct v as [|c v]; [by split; [left|]|].
    cbv zeta. destruct (is_nan (JS.Number (String c v))) eqn:Hn.
    + split; [by right|done].
    + split; [|by intros [|]].
      destruct (_ <? _)%float; simpl; discriminate.
  - intros Hv Hn. unfold formatYen. destruct v as [|c v]; [done|].
    cbv zeta. by rewrite Hn.
Qed.

Lemma X19_formatYen_dash_witness :
  formatYen (fun _ => "1,000") "1e3" = "¥1,000".
Proof.
  etransitivity.
  - apply (proj1 (proj2 (X19_formatYen_dash (fun _ => "1,000") "1e3")));
      [discriminate|by vm_compute].
  - by vm_compute.
Defined.

(** X20. On a host on UTC or east of it by less than a day, the week key
    of a calendar date of the year [y], from 0100 on, is [y], "-W" and a week
    number between 1 and 54 written with two digits. Week 54 occurs:
    2000-12-31 is in it on UTC. *)
Theorem X20_week_number_range tz s y m d
    (Hs : JSDate.fields s = Some (y, m, d))
    (Hy : 100 <= y)
    (Htz : 0 <= tz < 1440) :
  (exists wk, 1 <= wk <= 54
              /\ parseWeek tz s =
                 JS.toString y +:+ "-W" +:+ JS.padStart2 (JS.toString wk))
  /\ parseWeek 0 "2000-12-31" = "2000-W54".
Proof.
  split; [|by vm_compute].
  destruct (fields_valid _ _ _ _ Hs) as [Hm Hd].
  pose proof (MakeDay_in_year y m d Hm Hd) as Hin.
  rewrite DayFromYear_step in Hin.
  assert (Hlen : JSDate.DaysInYear y <= 366)
    by (unfold JSDate.DaysInYear; repeat case_match; lia).
  assert (Hwd : 0 <= JSDate.WeekDay (JSDate.MakeDay y 0 1) < 7)
    by (unfold JSDate.WeekDay; apply Z.mod_pos_bound; lia).
  destruct (Z.eq_dec tz 0) as [->|Hne].
  - rewrite (parseWeek_utc s y m d Hs Hy). unfold week_key_formula. cbv zeta.
    eexists. split; [|reflexivity].
    rewrite MakeDay_jan1 in *. unfold JSDate.ceil_div.
    set (D := JSDate.MakeDay y (m - 1) d) in *.
    set (J := JSDate.DayFromYear y) in *.
    set (w := JSDate.WeekDay J) in *.
    Z.div_mod_to_equations. lia.
  - rewrite (parseWeek_east tz s y m d Hs Hy) by lia.
    eexists. split; [|reflexivity].
    rewrite MakeDay_jan1 in *.
    set (D := JSDate.MakeDay y (m - 1) d) in *.
    set (J := JSDate.DayFromYear y) in *.
    set (w := JSDate.WeekDay J) in *.
    Z.div_mod_to_equations. lia.
Qed.

Lemma X20_week_number_range_witness :
  exists wk, 1 <= wk <= 54
             /\ parseWeek 540 "2024-02-10" =
                JS.toString 2024 +:+ "-W" +:+ JS.padStart2 (JS.toString wk).
Proof.
  refine (proj1 (X20_week_number_range 540 "2024-02-10" 2024 2 10 eq_refl _ _));
    lia.
Defined.

(** X21. The month key of a date of the form YYYY-MM-DD has the form
    YYYY-MM, the form of a plan's month; and for every string, the year key
    of its month key is its year key. *)
Theorem X21_month_key_form d :
  (is_date_form d = true -> is_month_form (parseMonth d) = true)
  /\ parseYear (parseMonth d) = parseYear d.
Proof.
  split.
  - unfold is_date_form, is_month_form, parseMonth, JS.slice0.
    destruct d as [|c1 [|c2 [|c3 [|c4 [|c5 [|c6 [|c7 [|c8 [|c9 [|c10 [|c11 d]]]]]]]]]]];
      try done.
    cbn [list_ascii_of_string substring].
    rewrite !andb_true_iff. intuition.
  - unfold parseYear, parseMonth, JS.slice0.
    by destruct d as [|c1 [|c2 [|c3 [|c4 [|c5 [|c6 [|c7 d]]]]]]].
Qed.

Lemma X21_month_key_form_witness :
  is_month_form (parseMonth "2024-01-05") = true.
Proof. exact (proj1 (X21_month_key_form "2024-01-05") eq_refl). Defined.

Lemma parseWeek_west tz s y m d :
  JSDate.fields s = Some (y, m, d) -> 100 <= y -> -1440 < tz < 0 ->
  JSDate.MakeDay y 0 1 < JSDate.MakeDay y (m - 1) d ->
  parseWeek tz s = week_key_formula y m d.
Proof.
  intros Hs Hy Htz Hnot1. destruct (fields_valid _ _ _ _ Hs) as [Hm Hd].
  pose proof (MakeDay_in_year y m d Hm Hd) as Hin.
  unfold parseWeek, JSDate.parse, week_key_formula. rewrite Hs.
  rewrite MakeDay_jan1 in *.
  set (D := JSDate.MakeDay y (m - 1) d) in *.
  assert (Hday : JSDate.Day (JSDate.LocalTime tz (D * JSDate.msPerDay)) = D - 1).
  { unfold JSDate.Day, JSDate.LocalTime, JSDate.msPerDay, JSDate.msPerMinute.
    Z.div_mod_to_equations. lia. }
  assert (Hyear : JSDate.getFullYear tz (D * JSDate.msPerDay) = y).
  { unfold JSDate.getFullYear. rewrite Hday. apply YearFromDay_unique. lia. }
  cbv zeta. rewrite Hyear.
  assert (Hjan : JSDate.fromLocal tz y 0 1 =
                 JSDate.DayFromYear y * JSDate.msPerDay - tz * JSDate.msPerMinute).
  { unfold JSDate.fromLocal, JSDate.UTC.
    destruct (Z.leb_spec y 99); [lia|]. by rewrite andb_false_r, MakeDay_jan1. }
  rewrite Hjan.
  assert (Hwd : JSDate.getDay tz
                  (JSDate.DayFromYear y * JSDate.msPerDay - tz * JSDate.msPerMinute) =
                JSDate.WeekDay (JSDate.DayFromYear y)).
  { unfold JSDate.getDay. f_equal.
    unfold JSDate.Day, JSDate.LocalTime, JSDate.msPerDay, JSDate.msPerMinute.
    Z.div_mod_to_equations. lia. }
  rewrite Hwd. do 4 f_equal.
  unfold JSDate.ceil_div, JSDate.msPerDay, JSDate.msPerMinute.
  set (w := JSDate.WeekDay (JSDate.DayFromYear y)).
  set (J := JSDate.DayFromYear y) in *.
  Z.div_mod_to_equations. lia.
Qed.

(** X22. How the week key depends on the host's zone, for a calendar date
    of a year from 0100 on. On UTC it is the key of the formula
    [ceil((daysSinceJan1 + weekdayOfJan1 + 1) / 7)]. West of UTC by less than
    a day it is that key too, for every date but January 1. East of UTC by
    less than a day the ceiling is replaced by the floor plus one, which
    moves each Saturday into the week after. *)
Theorem X22_week_key_by_zone tz s y m d
    (Hs : JSDate.fields s = Some (y, m, d))
    (Hy : 100 <= y) :
  (tz = 0 -> parseWeek tz s = week_key_formula y m d)
  /\ (-1440 < tz < 0 -> JSDate.MakeDay y 0 1 < JSDate.MakeDay y (m - 1) d ->
      parseWeek tz s = week_key_formula y m d)
  /\ (0 < tz < 1440 ->
      parseWeek tz s =
      JS.toString y +:+ "-W"
      +:+ JS.padStart2
            (JS.toString
               ((JSDate.MakeDay y (m - 1) d - JSDate.MakeDay y 0 1
                 + JSDate.WeekDay (JSDate.MakeDay y 0 1) + 1) / 7 + 1))).
Proof.
  split; [|split].
  - intros ->. by apply parseWeek_utc.
  - intros Htz Hnot1. by apply parseWeek_west.
  - intros Htz. by apply parseWeek_east.
Qed.

Lemma X22_week_key_by_zone_witness :
  parseWeek (-300) "2024-01-06" = week_key_formula 2024 1 6.
Proof.
  refine (proj1 (proj2 (X22_week_key_by_zone (-300) "2024-01-06" 2024 1 6
                          eq_refl _)) _ _).
  - lia.
  - lia.
  - by vm_compute.
Defined.
